(** * react-ghostmaker: the chain evaluator of [useGhostChain.ts]

    A shallow embedding of [useGhostChain], [useGhostChainItem] and
    [useTargetAutoInvalidate], together with the parts of React (hook
    slots, effects run at commit) and of the query client (a keyed cache
    with prefix invalidation) that those functions call.

    A render pass is a state-passing computation over [Render]; it ends
    with a value, suspends on a query key, or throws. *)

From Stdlib Require Import ZArith.
From stdpp Require Import gmap strings list fin_maps pretty.

Open Scope Z_scope.
Open Scope string_scope.

Set Warnings "-register-all".

(** ** JavaScript values

    Objects, arrays and functions carry the reference they are compared
    by ([Object.is]); [props] is what a property read sees at the time the
    value is observed (own and inherited properties alike), so the same
    reference can be observed with different contents after a mutation. A
    value that is stored, in a memo slot or in the cache, keeps the
    contents it was stored with: the model does not follow a later
    mutation in place of a stored object. *)

Inductive value : Type :=
| VUndefined
| VNull
| VBool (b : bool)
| VNum (n : Z)
| VStr (s : string)
| VArr (ref : nat) (elems : list value)
| VFun (ref : nat) (props : list (string * value))
| VObj (ref : nat) (props : list (string * value)).

(** [Object.is], the comparison React applies to hook dependencies. *)
Definition Object_is (a b : value) : bool :=
  match a, b with
  | VUndefined, VUndefined => true
  | VNull, VNull => true
  | VBool x, VBool y => Bool.eqb x y
  | VNum x, VNum y => Z.eqb x y
  | VStr x, VStr y => String.eqb x y
  | VArr r _, VArr r' _ => Nat.eqb r r'
  | VFun r _, VFun r' _ => Nat.eqb r r'
  | VObj r _, VObj r' _ => Nat.eqb r r'
  | _, _ => false
  end.

(** [is.nullOrUndefined], [is.object], [is.function] and [is.array] of
    [@sindresorhus/is]. *)
Definition is_nullOrUndefined (v : value) : bool :=
  match v with VUndefined | VNull => true | _ => false end.

Definition is_object (v : value) : bool :=
  match v with VArr _ _ | VFun _ _ | VObj _ _ => true | _ => false end.

Definition is_function (v : value) : bool :=
  match v with VFun _ _ => true | _ => false end.

Definition is_array (v : value) : bool :=
  match v with VArr _ _ => true | _ => false end.

(** What [if (v)] takes for true: everything but [undefined], [null],
    [false], [0] and the empty string. *)
Definition truthy (v : value) : bool :=
  match v with
  | VUndefined | VNull => false
  | VBool b => b
  | VNum n => negb (Z.eqb n 0)
  | VStr s => negb (String.eqb s "")
  | VArr _ _ | VFun _ _ | VObj _ _ => true
  end.

(** What a call settles to: a synchronous call returns or throws, an
    awaited call resolves or rejects. *)
Inductive outcome (A : Type) : Type :=
| Resolved (a : A)
| Rejected (e : value).

Arguments Resolved {A} a.
Arguments Rejected {A} e.

(** ** Chains and query keys *)

Abbreviation QueryKey := (list string).

Record GhostChainItem : Type := mkItem {
  propName : string;
  args : option (list value)
}.

Abbreviation GhostChain := (list GhostChainItem).

Record GhostChainContext : Type := mkContext {
  queryKey : QueryKey
}.

(** Modelled from the spec: the option type [useGhostOptions] lives in
    [./types], which is not among the sources; section 6 of the spec names
    one recognised option, [dependencies]. *)
Record useGhostOptions : Type := mkOptions {
  dependencies : option (list value)
}.

(** ** The query client

    An entry is in flight, or settled with data or with an error, and
    carries the client's [isInvalidated] mark. An in-flight entry records
    what its promise settles to. *)

Record UseQueryReturnType : Type := mkReturn {
  result : value
}.

Inductive QueryStatus : Type :=
| Pending (p : outcome UseQueryReturnType)
| Success (data : UseQueryReturnType)
| Error (err : value).

Record Query : Type := mkQuery {
  status : QueryStatus;
  isInvalidated : bool
}.

(** ** Observable interaction with the host: property reads, calls of
    user functions, and calls of the query hook. *)

Inductive event : Type :=
| EvGet (target : value) (name : string)
| EvCall (fn : nat) (this : value) (arguments : list value)
| EvQuery (key : QueryKey) (deps : option (list value)).

Record World : Type := mkWorld {
  queryClient : gmap QueryKey Query;
  targetHashes : gmap string Z;
  trace : list event
}.

Definition setQueryClient (qc : gmap QueryKey Query) (w : World) : World :=
  mkWorld qc (targetHashes w) (trace w).

Definition setTargetHashes (th : gmap string Z) (w : World) : World :=
  mkWorld (queryClient w) th (trace w).

Definition log (e : event) (w : World) : World :=
  mkWorld (queryClient w) (targetHashes w) (trace w ++ [e]).

(** ** React: hook slots and render passes

    A component keeps one slot per hook call, in call order. A render pass
    reads the slots of the last committed pass from the front of
    [oldHooks] and writes its own to [newHooks]; effects are collected in
    [effects] and run only when the pass commits. Only [useMemo] and
    [useEffect] keep state the evaluator depends on. *)

Inductive hookSlot : Type :=
| MemoSlot (deps : list value) (v : value)
| EffectSlot (deps : list value).

(** The effect closure of [useTargetAutoInvalidate]: the target and the
    query key it has captured. *)
Record Effect : Type := mkEffect {
  effTarget : value;
  effQueryKey : QueryKey
}.

Record Render : Type := mkRender {
  world : World;
  oldHooks : list hookSlot;
  newHooks : list hookSlot;
  effects : list Effect;
  context : GhostChainContext
}.

Definition setWorld (w : World) (s : Render) : Render :=
  mkRender w (oldHooks s) (newHooks s) (effects s) (context s).

Definition setContext (c : GhostChainContext) (s : Render) : Render :=
  mkRender (world s) (oldHooks s) (newHooks s) (effects s) c.

(** What is thrown: an assertion failure of [@sindresorhus/is] (with the
    expected type or the custom message), or a value thrown or rejected by
    user code. *)
Inductive thrown : Type :=
| AssertionError (msg : string)
| TypeError (msg : string)
| Thrown (e : value).

Inductive completion (A : Type) : Type :=
| Done (a : A)
| Suspend (key : QueryKey)
| Throw (e : thrown).

Arguments Done {A} a.
Arguments Suspend {A} key.
Arguments Throw {A} e.

Definition M (A : Type) : Type := Render -> Render * completion A.

Definition ret {A} (a : A) : M A := fun s => (s, Done a).

Definition bind {A B} (m : M A) (k : A -> M B) : M B :=
  fun s =>
    match m s with
    | (s', Done a) => k a s'
    | (s', Suspend key) => (s', Suspend key)
    | (s', Throw e) => (s', Throw e)
    end.

Definition throw {A} (e : thrown) : M A := fun s => (s, Throw e).

Definition modify (f : Render -> Render) : M unit := fun s => (f s, Done tt).

Definition gets {A} (f : Render -> A) : M A := fun s => (s, Done (f s)).

Declare Scope render_scope.
Delimit Scope render_scope with render.
Notation "x <- m ;; k" := (bind m (fun x => k))
  (at level 100, m at next level, right associativity) : render_scope.
Notation "m ;;; k" := (bind m (fun _ => k))
  (at level 100, right associativity) : render_scope.
Open Scope render_scope.

(** [areHookInputsEqual] of React: element-wise [Object.is] over the
    common length of the two dependency arrays. *)
Fixpoint areHookInputsEqual (nextDeps prevDeps : list value) : bool :=
  match nextDeps, prevDeps with
  | n :: ns, p :: ps => Object_is n p && areHookInputsEqual ns ps
  | _, _ => true
  end.

(** [useMemo (factory, deps)]: the stored value when the slot holds one
    for equal dependencies, the factory's result otherwise. A slot of the
    other kind at this position (the chain took another path than in the
    last committed pass) counts as no stored value. *)
Definition useMemo (factory : World -> World * outcome value)
  (deps : list value)
  : M value :=
  fun s =>
    let compute (old : list hookSlot) :=
      let (w, o) := factory (world s) in
      match o with
      | Resolved v =>
          (mkRender w old (newHooks s ++ [MemoSlot deps v]) (effects s)
             (context s), Done v)
      | Rejected e =>
          (mkRender w old (newHooks s) (effects s) (context s),
           Throw (Thrown e))
      end in
    match oldHooks s with
    | MemoSlot prevDeps v :: old =>
        if areHookInputsEqual deps prevDeps
        then (mkRender (world s) old (newHooks s ++ [MemoSlot prevDeps v])
                (effects s) (context s), Done v)
        else compute old
    | _ :: old => compute old
    | [] => compute []
    end.

(** [useEffect (effect, deps)]: the effect is scheduled for the commit on
    mount and whenever a dependency changed; a slot of the other kind at
    this position counts as a mount. *)
Definition useEffect (effect : Effect) (deps : list value) : M unit :=
  fun s =>
    let schedule (old : list hookSlot) :=
      (mkRender (world s) old (newHooks s ++ [EffectSlot deps])
         (effects s ++ [effect]) (context s), Done tt) in
    match oldHooks s with
    | EffectSlot prevDeps :: old =>
        if areHookInputsEqual deps prevDeps
        then (mkRender (world s) old (newHooks s ++ [EffectSlot deps])
                (effects s) (context s), Done tt)
        else schedule old
    | _ :: old => schedule old
    | [] => schedule []
    end.

(** [array.reduce (callback, initial)] with a callback that runs in a
    render pass. *)
Fixpoint reduce {A B} (callback : A -> B -> M A) (l : list B) (initial : A)
  : M A :=
  match l with
  | [] => ret initial
  | x :: rest => (a <- callback initial x ;; reduce callback rest a)
  end.

(** ** Assertions of [@sindresorhus/is] *)

Definition assert_array (v : value) : M (list value) :=
  match v with
  | VArr _ elems => ret elems
  | _ => throw (AssertionError "Array")
  end.

Definition assert_function (v : value) (msg : string) : M nat :=
  match v with
  | VFun ref _ => ret ref
  | _ => throw (AssertionError msg)
  end.

Definition assert_object (v : value) : M unit :=
  if is_object v then ret tt else throw (AssertionError "Object").

(** [assert.array] on the [args] of a chain item, which are an array or
    absent. *)
Definition assert_array_args (a : option (list value)) : M (list value) :=
  match a with
  | Some l => ret l
  | None => throw (AssertionError "Array")
  end.

(** [l[i]]: [undefined] past the end. *)
Definition index (l : list value) (i : nat) : value :=
  default VUndefined (l !! i).

(** [v ?? d]. *)
Definition nullish_coalesce (v d : value) : value :=
  if is_nullOrUndefined v then d else v.

Fixpoint lookupProp (name : string) (props : list (string * value)) : value :=
  match props with
  | [] => VUndefined
  | (n, v) :: rest => if String.eqb n name then v else lookupProp name rest
  end.

(** ** The query client: settling and invalidating *)

Record QueryFunctionContext : Type := mkQueryFunctionContext {
  ctxQueryKey : QueryKey
}.

Record UseSuspenseQueryOptions : Type := mkQueryOptions {
  optDependencies : option (list value);
  optQueryKey : QueryKey;
  queryFn : QueryFunctionContext -> World ->
            World * outcome UseQueryReturnType
}.

Record UseSuspenseQueryResult : Type := mkQueryResult {
  data : option UseQueryReturnType;
  error : option value
}.

(** Modelled from the spec: [useSuspenseQuery] is the query library's, it
    is not among the sources. Section 4.3, [readOrProduce (key,
    producerFn)]: a fresh settled entry is returned (its value or its
    error); a fetch in flight is joined; otherwise the producer is started
    once, recorded as in flight, and the caller suspends. The spread
    [options] reach the hook next to [queryKey] and [queryFn]. *)
Definition useSuspenseQuery (options : UseSuspenseQueryOptions)
  : M UseSuspenseQueryResult :=
  fun s =>
    let key := optQueryKey options in
    let w := log (EvQuery key (optDependencies options)) (world s) in
    let fetch : Render * completion UseSuspenseQueryResult :=
      let (w', p) := queryFn options (mkQueryFunctionContext key) w in
      (setWorld
         (setQueryClient
            (<[key := mkQuery (Pending p) false]> (queryClient w')) w') s,
       Suspend key) in
    match queryClient w !! key with
    | Some (mkQuery (Pending _) _) => (setWorld w s, Suspend key)
    | Some (mkQuery (Success d) false) =>
        (setWorld w s, Done (mkQueryResult (Some d) None))
    | Some (mkQuery (Error e) false) =>
        (setWorld w s, Done (mkQueryResult None (Some e)))
    | Some (mkQuery _ true) => fetch
    | None => fetch
    end.

(** The promise of an in-flight entry settles. *)
Definition settle (key : QueryKey) (w : World) : World :=
  match queryClient w !! key with
  | Some (mkQuery (Pending (Resolved d)) inv) =>
      setQueryClient (<[key := mkQuery (Success d) inv]> (queryClient w)) w
  | Some (mkQuery (Pending (Rejected e)) inv) =>
      setQueryClient (<[key := mkQuery (Error e) inv]> (queryClient w)) w
  | _ => w
  end.

Definition markInvalidated (q : Query) : Query := mkQuery (status q) true.

(** Modelled from the spec: [queryClient.invalidateQueries ({ queryKey })]
    is the query library's. Section 4.3, [invalidate (key)]: the entry for
    [key] and every entry whose key extends [key] are marked stale. *)
Definition invalidateQueries (key : QueryKey) (qc : gmap QueryKey Query)
  : gmap QueryKey Query :=
  map_imap
    (fun k q =>
       Some (if bool_decide (key `prefix_of` k) then markInvalidated q else q))
    qc.

(** Modelled from the spec: [invalidateGhosts] lives in [./invalidate],
    which is not among the sources. Section 4.6 has both entry points
    invalidate the key and, by cascade, every key that extends it. The
    hook tests of [makeGhost.test.tsx] (lines 236 to 322: "triggers
    re-execution of all async methods", "invalidates previous ghosts")
    have the producers of the key's cached prefixes, the earlier steps of
    the chain, run again as well; so the entries of those are marked
    too. *)
Definition invalidateGhosts (qc : gmap QueryKey Query) (key : QueryKey)
  : gmap QueryKey Query :=
  map_imap
    (fun k q =>
       Some (if bool_decide (key `prefix_of` k \/ k `prefix_of` key)
             then markInvalidated q else q))
    qc.

Record UseGhostReturn : Type := mkGhostReturn {
  value_of : value;
  invalidate : gmap QueryKey Query -> gmap QueryKey Query
}.

(** A function with its receiver bound: [fn.bind (this)]. *)
Record BoundFunction : Type := mkBound {
  boundFn : nat;
  boundThis : value
}.

(** ** The evaluator *)

(** What the evaluator takes from outside [useGhostChain.ts]:
    - the host: what calling a function value does, and what an array or
      a primitive (through the prototype of its wrapper, as in
      ["abc".toUpperCase]) answers to a property read;
    - [hashObject] of [./hash];
    - [transformFnProp] of [./types], the reserved property name of a
      transform item;
    - [queries.target] of [./queries], and the segment that
      [queries.chainItem] derives from an item's property name and the hash
      of its arguments. *)
Class Host : Type := mkHost {
  callFunction : nat -> value -> list value -> outcome value;
  builtinProperty : value -> string -> value;
  hashObject : value -> Z;
  transformFnProp : string;
  queries_target : value -> QueryKey;
  itemToken : GhostChainItem -> string
}.

Section Evaluator.

Context `{Host}.

(** Modelled from the spec: [queries.chainItem] lives in [./queries],
    which is not among the sources. Section 4.2, [compose (baseKey,
    item)]: the base key with one segment appended. *)
Definition queries_chainItem (baseKey : QueryKey) (item : GhostChainItem)
  : QueryKey :=
  baseKey ++ [itemToken item].

Definition isTransform (item : GhostChainItem) : bool :=
  String.eqb (propName item) transformFnProp.

(** Modelled from the spec: [queries.ghostChain] lives in [./queries].
    Section 3, QueryKey: the root key followed by one token for each
    item that is not a transform. *)
Definition queries_ghostChain (target : value) (chain : GhostChain)
  : QueryKey :=
  fold_left queries_chainItem
    (filter (fun item => isTransform item = false) chain)
    (queries_target target).

(** [target[name]]. The evaluator never reads a property off [null] or
    [undefined]. *)
Definition propertyOf (target : value) (name : string) : value :=
  match target with
  | VObj _ props => lookupProp name props
  | VFun _ props => lookupProp name props
  | VArr _ _ | VBool _ | VNum _ | VStr _ => builtinProperty target name
  | VUndefined | VNull => VUndefined
  end.

Definition getProperty (target : value) (name : string) : M value :=
  fun s =>
    (setWorld (log (EvGet target name) (world s)) s,
     Done (propertyOf target name)).

(** Calling a bound function with an argument list. *)
Definition callBound (f : BoundFunction) (arguments : list value)
  (w : World) : World * outcome value :=
  (log (EvCall (boundFn f) (boundThis f) arguments) w,
   callFunction (boundFn f) (boundThis f) arguments).

(** Modelled from the spec: [ghostFnContext] lives in [./context], which
    is not among the sources. Section 4.4, step 5 gives the producer as
    [() => targetFn (...args)]: bound to a query context and a function,
    it calls that function with the arguments it receives. *)
Definition ghostFnContext_bind (this : QueryFunctionContext)
  (fn : BoundFunction) (arguments : list value) (w : World)
  : World * outcome value :=
  callBound fn arguments w.

(** The event handler of [useTargetAutoInvalidate]. *)
Definition onTargetChangeEvent (target : value) (queryKey : QueryKey)
  (w : World) : World :=
  let joinedQueryKey := String.concat "." queryKey in
  let targetHash := hashObject target in
  let prevTargetHash := targetHashes w !! joinedQueryKey in
  let needsRefresh :=
    match prevTargetHash with
    | Some h => negb (Z.eqb h targetHash)
    | None => false
    end in
  let w :=
    setTargetHashes (<[joinedQueryKey := targetHash]> (targetHashes w)) w in
  if needsRefresh
  then setQueryClient (invalidateQueries queryKey (queryClient w)) w
  else w.

Definition useTargetAutoInvalidate (target : value) (queryKey : QueryKey)
  : M unit :=
  useEffect (mkEffect target queryKey) [target].

(** [cleanupTargetHashes]. *)
Definition cleanupTargetHashes (w : World) : World :=
  setTargetHashes ∅ w.

Definition useGhostChainItem (target : value) (item : GhostChainItem)
  (options : option useGhostOptions) : M value :=
  let options := default (mkOptions None) options in
  let propName := propName item in
  let args := args item in
  if String.eqb propName transformFnProp then
    args <- assert_array_args args ;;
    let transformFn := index args 0 in
    transformFn <- assert_function transformFn
                     "transform requires a mapping function" ;;
    let transformDependencies :=
      nullish_coalesce (index args 1) (VArr 0 []) in
    transformDependencies <- assert_array transformDependencies ;;
    useMemo
      (fun w =>
         (log (EvCall transformFn VUndefined [target]) w,
          callFunction transformFn VUndefined [target]))
      (target :: transformDependencies)
  else if is_nullOrUndefined target then
    ret target
  else
    assert_object target ;;;
    targetProperty <- getProperty target propName ;;
    modify (fun s =>
              setContext
                (mkContext (queries_chainItem (queryKey (context s)) item))
                s) ;;;
    match args with
    | None => ret targetProperty
    | Some args =>
        targetFn <- assert_function targetProperty "Function" ;;
        let targetFn := mkBound targetFn target in
        queryKey <- gets (fun s => queryKey (context s)) ;;
        query <- useSuspenseQuery
                   (mkQueryOptions (dependencies options) queryKey
                      (fun ctx w =>
                         let targetFnWithContext :=
                           ghostFnContext_bind ctx targetFn in
                         match targetFnWithContext args w with
                         | (w', Resolved r) => (w', Resolved (mkReturn r))
                         | (w', Rejected e) => (w', Rejected e)
                         end)) ;;
        useTargetAutoInvalidate target queryKey ;;;
        let returnResult : M value :=
          match data query with
          | Some d => ret (result d)
          | None => throw (TypeError "query.data is undefined")
          end in
        match error query with
        | Some e => if truthy e then throw (Thrown e) else returnResult
        | None => returnResult
        end
    end.

Definition useGhostChain (target : value) (chain : GhostChain)
  (options : option useGhostOptions) : M UseGhostReturn :=
  modify (setContext (mkContext (queries_target target))) ;;;
  value <- reduce
             (fun currentTarget item =>
                useGhostChainItem currentTarget item options)
             chain target ;;
  let invalidate :=
    fun queryClient =>
      invalidateGhosts queryClient (queries_ghostChain target chain) in
  ret (mkGhostReturn value invalidate).

(** ** A component that calls [useGhostChain]

    One render pass over the committed hook slots. A pass that ends with
    a value commits: its slots replace the old ones and its effects run,
    in order. A pass that suspends or throws leaves slots and effects
    behind; what it did to the world stays. *)

Definition commit (s : Render) : World :=
  fold_left
    (fun w e => onTargetChangeEvent (effTarget e) (effQueryKey e) w)
    (effects s) (world s).

Definition startRender (w : World) (hooks : list hookSlot) : Render :=
  mkRender w hooks [] [] (mkContext []).

Definition render (target : value) (chain : GhostChain)
  (options : option useGhostOptions) (w : World) (hooks : list hookSlot)
  : World * list hookSlot * completion UseGhostReturn :=
  match useGhostChain target chain options (startRender w hooks) with
  | (s, Done r) => (commit s, newHooks s, Done r)
  | (s, Suspend key) => (world s, hooks, Suspend key)
  | (s, Throw e) => (world s, hooks, Throw e)
  end.

(** The component is rendered again each time the promise it suspended on
    has settled, for at most [fuel] further passes. *)
Fixpoint renderSettled (fuel : nat) (target : value) (chain : GhostChain)
  (options : option useGhostOptions) (w : World) (hooks : list hookSlot)
  : World * list hookSlot * completion UseGhostReturn :=
  match fuel with
  | O => render target chain options w hooks
  | S fuel' =>
      match render target chain options w hooks with
      | (w', hooks', Suspend key) =>
          renderSettled fuel' target chain options (settle key w') hooks'
      | done => done
      end
  end.

(** Several evaluation contexts reach the same chain step one after
    the other, each with hook slots and a key context of its own, all on
    the one shared world, and no promise settles in between. *)
Fixpoint evaluations (locals : list Render) (target : value)
  (item : GhostChainItem) (options : option useGhostOptions) (w : World)
  : World * list (completion value) :=
  match locals with
  | [] => (w, [])
  | s :: rest =>
      let (s', r) := useGhostChainItem target item options (setWorld w s) in
      let (w', rs) := evaluations rest target item options (world s') in
      (w', r :: rs)
  end.

(** The calls of user functions among the events of a trace. *)
Definition isCall (e : event) : bool :=
  match e with EvCall _ _ _ => true | _ => false end.

Definition calls (w : World) : list event := List.filter isCall (trace w).

(** The producer of a method step: the call it makes and what the call
    settles to. *)
Definition producerOutcome (f : nat) (target : value) (a : list value)
  : outcome UseQueryReturnType :=
  match callFunction f target a with
  | Resolved r => Resolved (mkReturn r)
  | Rejected e => Rejected e
  end.

(** The state in which a method step reaches the query hook: the
    property was read, the key advanced, the hook called. *)
Definition atQuery (target : value) (item : GhostChainItem)
  (options : option useGhostOptions) (s : Render) : Render :=
  setWorld
    (log (EvQuery (queries_chainItem (queryKey (context s)) item)
            (dependencies (default (mkOptions None) options)))
       (log (EvGet target (propName item)) (world s)))
    (setContext (mkContext (queries_chainItem (queryKey (context s)) item))
       s).

(** Whether the query hook starts the producer on finding this entry:
    there is none, or it is settled and marked stale. *)
Definition startsProducer (q : option Query) : bool :=
  match q with
  | None => true
  | Some (mkQuery (Pending _) _) => false
  | Some (mkQuery _ inv) => inv
  end.

End Evaluator.

(** ** A concrete host, after the mocks of [makeGhost.test.tsx]

    A project [Project A] whose [getDetailed ()] resolves to a detailed
    project with a [customer]; the customer's [getDetailed ()] resolves to
    a detailed customer, whose [getName ()] resolves to ["Customer C1"];
    [findDetailed ()] resolves to [undefined]. *)
Module Mock.

Definition fnGetName : nat := 21.
Definition fnCustomerGetDetailed : nat := 20.
Definition fnProjectGetDetailed : nat := 10.
Definition fnProjectFindDetailed : nat := 11.
Definition fnProjectGetName : nat := 12.
Definition fnFailing : nat := 13.
Definition fnIdentity : nat := 30.
Definition fnFallback : nat := 31.
Definition fnRejectsEmpty : nat := 14.

Definition customerDetailed : value :=
  VObj 4 [("id", VStr "C1"); ("getName", VFun fnGetName [])].

Definition customer : value :=
  VObj 3 [("id", VStr "C1"); ("getDetailed", VFun fnCustomerGetDetailed [])].

Definition projectDetailed : value :=
  VObj 2 [("id", VStr "Project A");
          ("name", VStr "Project Project A");
          ("customer", customer);
          ("getName", VFun fnProjectGetName [])].

(** The detailed project after the mock was replaced: another object,
    another name. *)
Definition projectChanged : value :=
  VObj 5 [("id", VStr "Project A");
          ("name", VStr "CHANGED! Project Project A");
          ("customer", customer);
          ("getName", VFun fnProjectGetName [])].

Definition project : value :=
  VObj 1 [("id", VStr "Project A");
          ("getDetailed", VFun fnProjectGetDetailed []);
          ("findDetailed", VFun fnProjectFindDetailed []);
          ("load", VFun fnFailing []);
          ("label", VStr "a project")].

Definition mockCall (fn : nat) (this : value) (arguments : list value)
  : outcome value :=
  if Nat.eqb fn fnProjectGetDetailed then Resolved projectDetailed
  else if Nat.eqb fn fnProjectFindDetailed then Resolved VUndefined
  else if Nat.eqb fn fnCustomerGetDetailed then Resolved customerDetailed
  else if Nat.eqb fn fnGetName then Resolved (VStr "Customer C1")
  else if Nat.eqb fn fnProjectGetName then
    match this with
    | VObj _ props => Resolved (lookupProp "name" props)
    | _ => Resolved VUndefined
    end
  else if Nat.eqb fn fnFailing then Rejected (VStr "network down")
  else if Nat.eqb fn fnIdentity then Resolved (index arguments 0)
  else if Nat.eqb fn fnFallback then Resolved customerDetailed
  else if Nat.eqb fn fnRejectsEmpty then Rejected VUndefined
  else Resolved VUndefined.

(** A structural hash: the contents count, references do not. *)
Fixpoint mockHash (v : value) : Z :=
  match v with
  | VUndefined => 1
  | VNull => 2
  | VBool b => if b then 3 else 4
  | VNum n => n mod 4294967296
  | VStr s => Z.of_nat (String.length s)
  | VArr _ elems =>
      fold_right (fun e acc => (31 * acc + mockHash e) mod 4294967296) 7
        elems
  | VFun _ _ => 5
  | VObj _ props =>
      fold_right
        (fun p acc =>
           (31 * acc + Z.of_nat (String.length (fst p)) + mockHash (snd p))
           mod 4294967296)
        11 props
  end.

Definition mockTarget (target : value) : QueryKey :=
  match target with
  | VObj _ props =>
      match lookupProp "id" props with
      | VStr id => ["ghost"; id]
      | _ => ["ghost"]
      end
  | _ => ["ghost"]
  end.

Definition mockToken (item : GhostChainItem) : string :=
  match args item with
  | None => propName item
  | Some a => propName item ++ "(" ++ pretty (mockHash (VArr 0 a)) ++ ")"
  end.

Definition fnToUpperCase : nat := 40.

Definition mockBuiltin (target : value) (name : string) : value :=
  match target with
  | VStr s =>
      if String.eqb name "toUpperCase" then VFun fnToUpperCase []
      else if String.eqb name "length" then VNum (Z.of_nat (String.length s))
      else VUndefined
  | VArr _ elems =>
      if String.eqb name "length" then VNum (Z.of_nat (length elems))
      else VUndefined
  | _ => VUndefined
  end.

Definition host : Host :=
  mkHost mockCall mockBuiltin mockHash "transform" mockTarget mockToken.

Definition emptyWorld : World := mkWorld ∅ ∅ [].

(** The chain items of the tests, and a few that go wrong. *)
Definition getDetailed : GhostChainItem := mkItem "getDetailed" (Some []).
Definition findDetailed : GhostChainItem := mkItem "findDetailed" (Some []).
Definition getName : GhostChainItem := mkItem "getName" (Some []).
Definition toUpperCase : GhostChainItem := mkItem "toUpperCase" (Some []).
Definition customerProp : GhostChainItem := mkItem "customer" None.
Definition idProp : GhostChainItem := mkItem "id" None.
Definition labelProp : GhostChainItem := mkItem "label" None.
Definition nicknameProp : GhostChainItem := mkItem "nickname" None.
Definition labelCall : GhostChainItem := mkItem "label" (Some []).
Definition transform (f : nat) : GhostChainItem :=
  mkItem "transform" (Some [VFun f []]).
Definition badTransform : GhostChainItem :=
  mkItem "transform" (Some [VStr "not a function"]).

Definition rootKey : QueryKey := ["ghost"; "Project A"].
Definition otherRootKey : QueryKey := ["ghost"; "Project B"].

Definition detailedKey : QueryKey :=
  queries_chainItem (H := host) rootKey getDetailed.
Definition customerDetailedKey : QueryKey :=
  queries_chainItem (H := host)
    (queries_chainItem (H := host) detailedKey customerProp) getDetailed.
Definition otherDetailedKey : QueryKey :=
  queries_chainItem (H := host) otherRootKey getDetailed.
Definition nameKey : QueryKey :=
  queries_chainItem (H := host) rootKey getName.

(** An evaluation context that mounts: no hook slots yet, the running key
    at [base]. *)
Definition mounting (w : World) (base : QueryKey) : Render :=
  mkRender w [] [] [] (mkContext base).

Definition fresh (v : value) : Query :=
  mkQuery (Success (mkReturn v)) false.

(** Three settled entries: the detailed project, the detailed customer
    reached through it, and the detailed project of another root. *)
Definition threeEntries : gmap QueryKey Query :=
  <[detailedKey := fresh projectDetailed]>
    (<[customerDetailedKey := fresh customerDetailed]>
       (<[otherDetailedKey := fresh projectDetailed]> ∅)).

(** The name of the detailed project is cached, and the hash of the
    project it was read from is on record. *)
Definition namedWorld : World :=
  mkWorld
    (<[nameKey := fresh (VStr "Project Project A")]> ∅)
    (<[String.concat "." nameKey := mockHash projectDetailed]> ∅)
    [].


(** Transform items with a second argument: [null], and a string. *)
Definition transformNullDeps : GhostChainItem :=
  mkItem "transform" (Some [VFun fnIdentity []; VNull]).
Definition transformBadDeps : GhostChainItem :=
  mkItem "transform" (Some [VFun fnIdentity []; VStr "name"]).

(** Two query keys that [join (".")] writes the same way. *)
Definition dottedKey : QueryKey := ["ghost.Project A"; "getName(7)"].
Definition splitKey : QueryKey := ["ghost"; "Project A.getName(7)"].

(** An object whose [ping ()] rejects without a reason, as
    [Promise.reject ()] does. *)
Definition probe : value :=
  VObj 6 [("id", VStr "probe"); ("ping", VFun fnRejectsEmpty [])].
Definition ping : GhostChainItem := mkItem "ping" (Some []).
Definition probeKey : QueryKey := ["ghost"; "probe"].
Definition pingKey : QueryKey := queries_chainItem (H := host) probeKey ping.

(** [ping ()] has been rejected, with [undefined]. *)
Definition pingedWorld : World :=
  mkWorld (<[pingKey := mkQuery (Error VUndefined) false]> ∅) ∅ [].


(** [getDetailed ()] has resolved and is cached. *)
Definition detailedWorld : World :=
  mkWorld (<[detailedKey := fresh projectDetailed]> ∅) ∅ [].

End Mock.

(** The value a render pass of the component ends with. *)
Definition valueOf (r : World * list hookSlot * completion UseGhostReturn)
  : completion value :=
  match r.2 with
  | Done g => Done (value_of g)
  | Suspend key => Suspend key
  | Throw e => Throw e
  end.

(** The [invalidate] closure a render pass of the component ends with;
    a pass that has not ended with a value has none to call. *)
Definition invalidateOf (c : completion UseGhostReturn)
  : gmap QueryKey Query -> gmap QueryKey Query :=
  match c with
  | Done g => invalidate g
  | _ => fun qc => qc
  end.

(** ** Claims as the specification words them

    Seven sentences of the specification promise more than the evaluator
    does. Each is written out here the way the specification has it, to be
    refuted on the mock host below and replaced by the statement that
    holds. *)

(** Null short-circuit, as worded: once the current value is nullish,
    every later property or method step of the chain, wherever it stands,
    resolves to that same nullish value and the query cache stays as it
    is. *)
Definition null_short_circuit_as_stated : Prop :=
  forall (H : Host) (target : value) (between : GhostChain)
         (item : GhostChainItem) (options : option useGhostOptions)
         (s : Render),
    is_nullOrUndefined target = true ->
    isTransform item = false ->
    exists s',
      reduce (fun cur i => useGhostChainItem cur i options)
        (between ++ [item]) target s = (s', Done target)
      /\ queryClient (world s') = queryClient (world s).

(** Key composition, as worded: after a chain has been evaluated, the
    running key is the root key followed by one token for every item that
    is not a transform. *)
Definition key_per_non_transform_item_as_stated : Prop :=
  forall (H : Host) (target : value) (chain : GhostChain)
         (options : option useGhostOptions) (w : World)
         (hooks : list hookSlot) (s' : Render) (r : UseGhostReturn),
    useGhostChain target chain options (startRender w hooks) = (s', Done r) ->
    queryKey (context s') = queries_ghostChain target chain.

(** Target-change detection, as worded: when the hash stored for a key
    differs from the hash of the target now observed, the key is
    invalidated before its value is read, so the evaluation does not come
    back with the cached value but recomputes. *)
Definition invalidation_precedes_read_as_stated : Prop :=
  forall (H : Host) (target : value) (item : GhostChainItem)
         (a : list value) (options : option useGhostOptions) (s : Render)
         (d : UseQueryReturnType) (h : Z),
    isTransform item = false ->
    is_object target = true ->
    args item = Some a ->
    is_function (propertyOf target (propName item)) = true ->
    let key := queries_chainItem (queryKey (context s)) item in
    queryClient (world s) !! key = Some (mkQuery (Success d) false) ->
    targetHashes (world s) !! String.concat "." key = Some h ->
    h <> hashObject target ->
    exists s', useGhostChainItem target item options s = (s', Suspend key).

(** The [dependencies] option, as worded for transform steps: a transform
    that was computed under one list of option dependencies is computed
    again when it is evaluated, on the hook slots that pass left, under
    another. *)
Definition options_reach_transform_memo_as_stated : Prop :=
  forall (H : Host) (target : value) (item : GhostChainItem)
         (deps1 deps2 : list value) (s s1 s2 : Render) (v1 v2 : value),
    isTransform item = true ->
    useGhostChainItem target item (Some (mkOptions (Some deps1))) s
      = (s1, Done v1) ->
    areHookInputsEqual deps2 deps1 = false ->
    useGhostChainItem target item (Some (mkOptions (Some deps2)))
      (mkRender (world s1) (newHooks s1) [] [] (context s1))
      = (s2, Done v2) ->
    calls (world s2) <> calls (world s1).

(** The producer, as worded: an item with arguments evaluated against any
    current value that is not nullish and whose property of that name is
    callable has its producer call that function. *)
Definition producer_called_on_callable_property_as_stated : Prop :=
  forall (H : Host) (target : value) (item : GhostChainItem)
         (options : option useGhostOptions) (s : Render) (a : list value)
         (f : nat) (props : list (string * value)),
    isTransform item = false ->
    is_nullOrUndefined target = false ->
    args item = Some a ->
    propertyOf target (propName item) = VFun f props ->
    let key := queries_chainItem (queryKey (context s)) item in
    startsProducer (queryClient (world s) !! key) = true ->
    exists s',
      useGhostChainItem target item options s = (s', Suspend key)
      /\ calls (world s') = (calls (world s) ++ [EvCall f target a])%list.

(** Prefix cascade, as worded: an entry whose key does not extend the
    invalidated key is unaffected by the invalidation. *)
Definition non_extensions_unaffected_as_stated : Prop :=
  forall (qc : gmap QueryKey Query) (key key' : QueryKey) (q : Query),
    qc !! key' = Some q ->
    ~ key `prefix_of` key' ->
    invalidateGhosts qc key !! key' = Some q.


(** The [dependencies] option, as worded for method steps: a method step
    whose value came back under one list of option dependencies is
    computed again, so suspends, when it is evaluated under another. *)
Definition options_reach_query_memo_as_stated : Prop :=
  forall (H : Host) (target : value) (item : GhostChainItem)
         (a deps1 deps2 : list value) (s s1 : Render) (v1 : value),
    isTransform item = false ->
    args item = Some a ->
    useGhostChainItem target item (Some (mkOptions (Some deps1))) s
      = (s1, Done v1) ->
    areHookInputsEqual deps2 deps1 = false ->
    exists s2,
      useGhostChainItem target item (Some (mkOptions (Some deps2)))
        (mkRender (world s1) (newHooks s1) [] [] (context s))
      = (s2, Suspend (queries_chainItem (queryKey (context s)) item)).

(** ** Properties of the evaluator *)

Section Properties.

Context `{Host}.

Local Open Scope list_scope.

Implicit Types (target v : value) (item : GhostChainItem)
  (options : option useGhostOptions) (s : Render) (w : World)
  (key : QueryKey) (qc : gmap QueryKey Query).

(** The three branches of [useGhostChainItem]. *)

Lemma step_nullish target item options s :
  isTransform item = false ->
  is_nullOrUndefined target = true ->
  useGhostChainItem target item options s = (s, Done target).
Proof.
  intros Hitem Hnull. unfold useGhostChainItem.
  unfold isTransform in Hitem. rewrite Hitem, Hnull. reflexivity.
Qed.

Lemma reduce_nil {A B} (f : A -> B -> M A) (a : A) s :
  reduce f [] a s = (s, Done a).
Proof. reflexivity. Qed.

Lemma reduce_cons {A B} (f : A -> B -> M A) (x : B) (l : list B) (a : A) s :
  reduce f (x :: l) a s
  = match f a x s with
    | (s', Done a') => reduce f l a' s'
    | (s', Suspend key) => (s', Suspend key)
    | (s', Throw e) => (s', Throw e)
    end.
Proof. reflexivity. Qed.

(** Unfolding one step of the evaluator down to its primitive hooks. *)
Ltac unfold_step :=
  unfold useGhostChainItem, useTargetAutoInvalidate, useSuspenseQuery,
    useEffect, useMemo, getProperty, assert_object, assert_function,
    assert_array, assert_array_args, ghostFnContext_bind, callBound,
    bind, ret, throw, modify, gets in *.

Ltac step_cases :=
  unfold_step; repeat (case_match; simplify_eq /=); try done.

Lemma step_key target item options s s' v :
  useGhostChainItem target item options s = (s', Done v) ->
  queryKey (context s')
  = if isTransform item || is_nullOrUndefined target
    then queryKey (context s)
    else queries_chainItem (queryKey (context s)) item.
Proof.
  unfold isTransform. intros Hstep. step_cases.
Qed.

(** *** Nullish short-circuit *)

Lemma reduce_nullish target rest options s :
  is_nullOrUndefined target = true ->
  Forall (fun item => isTransform item = false) rest ->
  reduce (fun cur item => useGhostChainItem cur item options) rest target s
  = (s, Done target).
Proof.
  intros Hnull Hrest. induction Hrest as [|item rest Hitem _ IH].
  - reflexivity.
  - rewrite reduce_cons, step_nullish by assumption. exact IH.
Qed.

(** C2 (amended): a property or method item evaluated while the current
    value is nullish is skipped: the same nullish value comes back and
    the whole render state, world and trace included, is as before, so
    no property was read and no producer was called. The same then holds
    for every run of property and method items that follows, up to the
    next transform item. *)
Theorem nullish_short_circuit target options s :
  is_nullOrUndefined target = true ->
  (forall item,
      isTransform item = false ->
      useGhostChainItem target item options s = (s, Done target))
  /\ (forall rest,
        Forall (fun item => isTransform item = false) rest ->
        reduce (fun cur item => useGhostChainItem cur item options)
          rest target s
        = (s, Done target)).
Proof.
  intros Hnull. split.
  - intros item Hitem. by apply step_nullish.
  - intros rest Hrest. by apply reduce_nullish.
Qed.

(** *** Key composition *)

Lemma reduce_key target chain options s s' v :
  reduce (fun cur item => useGhostChainItem cur item options) chain target s
  = (s', Done v) ->
  exists keyed,
    keyed `sublist_of` filter (fun item => isTransform item = false) chain
    /\ queryKey (context s') = queryKey (context s) ++ (itemToken <$> keyed).
Proof.
  revert target s. induction chain as [|item chain IH]; intros target s.
  - rewrite reduce_nil. intros [= <- <-]. exists [].
    split; [constructor | by rewrite app_nil_r].
  - rewrite reduce_cons.
    destruct (useGhostChainItem target item options s)
      as [s1 [v1| |]] eqn:Hstep; [|discriminate..].
    intros Hrest. apply IH in Hrest as (keyed & Hsub & Hkey).
    apply step_key in Hstep. rewrite filter_cons.
    destruct (isTransform item) eqn:Hitem; simpl in Hstep.
    + exists keyed. rewrite decide_False by done.
      split; [done | by rewrite Hkey, Hstep].
    + rewrite decide_True by done.
      destruct (is_nullOrUndefined target).
      * exists keyed. split; [by apply sublist_cons | by rewrite Hkey, Hstep].
      * exists (item :: keyed). split; [by apply sublist_skip |].
        rewrite Hkey, Hstep. unfold queries_chainItem.
        by rewrite <- app_assoc.
Qed.

Lemma reduce_key_full target chain options s s' v :
  Forall (fun item => isTransform item = false) chain ->
  is_nullOrUndefined v = false ->
  reduce (fun cur item => useGhostChainItem cur item options) chain target s
  = (s', Done v) ->
  queryKey (context s') = queryKey (context s) ++ (itemToken <$> chain).
Proof.
  intros Hchain Hv. revert target s.
  induction Hchain as [|item chain Hitem Hchain IH]; intros target s.
  - rewrite reduce_nil. intros [= <- <-]. by rewrite app_nil_r.
  - destruct (is_nullOrUndefined target) eqn:Hnull.
    + rewrite reduce_nullish by (done || by constructor).
      intros [= <- <-]. congruence.
    + rewrite reduce_cons.
      destruct (useGhostChainItem target item options s)
        as [s1 [v1| |]] eqn:Hstep; [|discriminate..].
      intros Hrest. apply IH in Hrest. apply step_key in Hstep.
      rewrite Hitem, Hnull in Hstep. simpl in Hstep.
      rewrite Hrest, Hstep. unfold queries_chainItem.
      by rewrite <- app_assoc.
Qed.

(** C5 (amended): the running key after an item equals the key before
    it, extended by exactly that item's token when the item is not a
    transform and the current value is not nullish, and unchanged when
    the item is a transform or is skipped on a nullish value. So the key
    after a chain is the key it started from followed by the tokens, in
    order, of some of the chain's non-transform items: of all of them
    when the chain has no transform and ends in a value that is not
    nullish. *)
Theorem key_extends_per_evaluated_step target options s s' v :
  (forall item,
      useGhostChainItem target item options s = (s', Done v) ->
      queryKey (context s')
      = if isTransform item || is_nullOrUndefined target
        then queryKey (context s)
        else queryKey (context s) ++ [itemToken item])
  /\ (forall chain,
        reduce (fun cur item => useGhostChainItem cur item options)
          chain target s = (s', Done v) ->
        exists keyed,
          keyed `sublist_of`
            filter (fun item => isTransform item = false) chain
          /\ queryKey (context s')
             = queryKey (context s) ++ (itemToken <$> keyed))
  /\ (forall chain,
        Forall (fun item => isTransform item = false) chain ->
        is_nullOrUndefined v = false ->
        reduce (fun cur item => useGhostChainItem cur item options)
          chain target s = (s', Done v) ->
        queryKey (context s')
        = queryKey (context s) ++ (itemToken <$> chain)).
Proof.
  split; [|split].
  - intros item Hstep. by apply step_key in Hstep.
  - intros chain. apply reduce_key.
  - intros chain. apply reduce_key_full.
Qed.

(** *** Method steps *)

Lemma step_method target item options s a f props :
  isTransform item = false ->
  is_object target = true ->
  args item = Some a ->
  propertyOf target (propName item) = VFun f props ->
  let key := queries_chainItem (queryKey (context s)) item in
  let s1 := atQuery target item options s in
  useGhostChainItem target item options s
  = match queryClient (world s) !! key with
    | Some (mkQuery (Pending _) _) => (s1, Suspend key)
    | Some (mkQuery (Success d) false) =>
        ((useEffect (mkEffect target key) [target] s1).1, Done (result d))
    | Some (mkQuery (Error e) false) =>
        ((useEffect (mkEffect target key) [target] s1).1,
         Throw (if truthy e then Thrown e
                else TypeError "query.data is undefined"))
    | _ =>
        (setWorld
           (setQueryClient
              (<[key := mkQuery (Pending (producerOutcome f target a)) false]>
                 (queryClient (world s)))
              (log (EvCall f target a) (world s1)))
           s1,
         Suspend key)
    end.
Proof.
  intros Hitem Hobj Hargs Hprop key s1. subst key s1.
  unfold isTransform in Hitem.
  assert (is_nullOrUndefined target = false) as Hnull
    by (by destruct target).
  unfold useGhostChainItem. rewrite Hitem, Hnull, Hargs.
  unfold atQuery, producerOutcome.
  unfold_step. rewrite Hobj, Hprop. simpl.
  repeat (case_match; simplify_eq /=); try done.
Qed.

(** *** Contract errors *)

(** C8: a transform item whose first argument is not a function, and an
    item with arguments whose current value is not nullish but is no
    object or has no callable property under that name, both make the step
    throw an assertion error in the pass itself. The pass has not reached
    the query hook: the query cache, the target hashes, the hook slots and
    the scheduled effects are as before, and the trace has gained at most
    the read of the property, no call. *)
Theorem contract_errors_raise_synchronously target item options s :
  (isTransform item = true ->
   is_function (index (default [] (args item)) 0) = false ->
   exists msg,
     useGhostChainItem target item options s
     = (s, Throw (AssertionError msg)))
  /\ (isTransform item = false ->
      is_nullOrUndefined target = false ->
      is_Some (args item) ->
      is_object target = false
      \/ is_function (propertyOf target (propName item)) = false ->
      exists s' msg,
        useGhostChainItem target item options s
        = (s', Throw (AssertionError msg))
        /\ queryClient (world s') = queryClient (world s)
        /\ targetHashes (world s') = targetHashes (world s)
        /\ (trace (world s') = trace (world s)
            \/ trace (world s')
               = trace (world s) ++ [EvGet target (propName item)])
        /\ newHooks s' = newHooks s
        /\ oldHooks s' = oldHooks s
        /\ effects s' = effects s).
Proof.
  split.
  - intros Hitem Hfn. unfold isTransform in Hitem.
    unfold useGhostChainItem. rewrite Hitem.
    destruct (args item) as [l|]; simpl in *.
    + unfold_step. destruct (index l 0); try discriminate; eauto.
    + unfold_step. eauto.
  - intros Hitem Hnull [a Hargs] Hbad. unfold isTransform in Hitem.
    unfold useGhostChainItem. rewrite Hitem, Hnull, Hargs.
    destruct (is_object target) eqn:Hobj.
    + destruct Hbad as [?|Hfn]; [done|].
      unfold_step. rewrite Hobj. simpl.
      destruct (propertyOf target (propName item)); try discriminate;
        eexists _, _; simpl; repeat split; eauto.
    + unfold_step. rewrite Hobj.
      eexists _, _; repeat split; eauto.
Qed.

(** *** Transform steps *)

(** For dependency arrays of one length, [areHookInputsEqual] is
    [Object.is] at every position. *)
Lemma areHookInputsEqual_Forall2 (next prev : list value) :
  length next = length prev ->
  areHookInputsEqual next prev = true
  <-> Forall2 (fun a b => Object_is a b = true) next prev.
Proof.
  revert prev. induction next as [|n next IH]; intros [|p prev] Hlen;
    simplify_eq /=.
  - split; [constructor | done].
  - rewrite andb_true_iff, IH by done. split.
    + intros [??]. by constructor.
    + by inversion 1.
Qed.


Lemma calls_log e w :
  calls (log e w) = calls w ++ (if isCall e then [e] else []).
Proof.
  unfold calls, log. simpl. rewrite List.filter_app. simpl.
  by destruct (isCall e).
Qed.

Lemma calls_setQueryClient qc w : calls (setQueryClient qc w) = calls w.
Proof. reflexivity. Qed.

Lemma calls_setTargetHashes th w : calls (setTargetHashes th w) = calls w.
Proof. reflexivity. Qed.

Lemma calls_atQuery target item options s :
  calls (world (atQuery target item options s)) = calls (world s).
Proof.
  unfold atQuery. simpl. rewrite !calls_log. simpl. by rewrite !app_nil_r.
Qed.

Lemma queryClient_atQuery target item options s :
  queryClient (world (atQuery target item options s)) = queryClient (world s).
Proof. reflexivity. Qed.

Lemma targetHashes_atQuery target item options s :
  targetHashes (world (atQuery target item options s))
  = targetHashes (world s).
Proof. reflexivity. Qed.

Lemma context_atQuery target item options s :
  queryKey (context (atQuery target item options s))
  = queries_chainItem (queryKey (context s)) item.
Proof. reflexivity. Qed.

Create Rewrite HintDb world.
#[local] Hint Rewrite calls_setQueryClient calls_setTargetHashes calls_log
  calls_atQuery : world.

Lemma useEffect_world effect deps s :
  world (useEffect effect deps s).1 = world s.
Proof. unfold useEffect. by repeat case_match. Qed.

(** A method step whose key has no usable entry starts the producer. *)
Lemma step_method_fetch target item options s a f props :
  isTransform item = false ->
  is_object target = true ->
  args item = Some a ->
  propertyOf target (propName item) = VFun f props ->
  let key := queries_chainItem (queryKey (context s)) item in
  startsProducer (queryClient (world s) !! key) = true ->
  useGhostChainItem target item options s
  = (setWorld
       (setQueryClient
          (<[key := mkQuery (Pending (producerOutcome f target a)) false]>
             (queryClient (world s)))
          (log (EvCall f target a) (world (atQuery target item options s))))
       (atQuery target item options s),
     Suspend key).
Proof.
  intros Hitem Hobj Hargs Hprop key Hstart.
  rewrite (step_method _ _ _ _ a f props) by done. fold key.
  destruct (queryClient (world s) !! key) as [[[p|d|e] [|]]|]; done.
Qed.

(** A method step whose key has a fresh resolved entry returns its
    result. *)
Lemma step_method_cached target item options s a f props d :
  isTransform item = false ->
  is_object target = true ->
  args item = Some a ->
  propertyOf target (propName item) = VFun f props ->
  let key := queries_chainItem (queryKey (context s)) item in
  queryClient (world s) !! key = Some (mkQuery (Success d) false) ->
  useGhostChainItem target item options s
  = ((useEffect (mkEffect target key) [target]
        (atQuery target item options s)).1,
     Done (result d)).
Proof.
  intros Hitem Hobj Hargs Hprop key Hq.
  rewrite (step_method _ _ _ _ a f props) by done. fold key. by rewrite Hq.
Qed.

Lemma settle_resolved key w r inv :
  queryClient w !! key = Some (mkQuery (Pending (Resolved r)) inv) ->
  queryClient (settle key w) !! key = Some (mkQuery (Success r) inv).
Proof.
  intros Hq. unfold settle. rewrite Hq. simpl. by rewrite lookup_insert_eq.
Qed.

(** *** The producer of a method step *)

Lemma method_step_produces target item options s a f props :
  isTransform item = false ->
  is_object target = true ->
  args item = Some a ->
  propertyOf target (propName item) = VFun f props ->
  let key := queries_chainItem (queryKey (context s)) item in
  startsProducer (queryClient (world s) !! key) = true ->
  exists s',
    useGhostChainItem target item options s = (s', Suspend key)
    /\ calls (world s') = calls (world s) ++ [EvCall f target a]
    /\ queryClient (world s') !! key
       = Some (mkQuery (Pending (producerOutcome f target a)) false)
    /\ forall v,
        callFunction f target a = Resolved v ->
        exists s'',
          useGhostChainItem target item options
            (setWorld (settle key (world s')) s)
          = (s'', Done v)
          /\ calls (world s'') = calls (world s').
Proof.
  intros Hitem Hobj Hargs Hprop key Hstart.
  eexists. split; [by apply (step_method_fetch _ _ _ _ a f props)|].
  fold key. cbn [world setWorld].
  split; [by autorewrite with world|].
  split; [by cbn; rewrite lookup_insert_eq|].
  intros v Hv.
  assert (producerOutcome f target a = Resolved (mkReturn v)) as Hout
    by (unfold producerOutcome; by rewrite Hv).
  rewrite Hout.
  set (w' := setQueryClient _ _).
  assert (queryClient (settle key w') !! key
          = Some (mkQuery (Success (mkReturn v)) false)) as Hsettled.
  { apply settle_resolved. subst w'. cbn. by rewrite lookup_insert_eq. }
  eexists. split.
  - by rewrite (step_method_cached _ _ _ _ a f props (mkReturn v)).
  - cbn [fst]. rewrite useEffect_world. autorewrite with world.
    cbn [world setWorld]. unfold settle.
    destruct (queryClient w' !! key) as [[[[r|e]|d|e] inv]|]; done.
Qed.

(** C10 (amended): for an item with arguments evaluated against a current
    value that is an object, an array or a function and whose property of
    that name is a function [f], a step that finds no usable entry under
    its key starts the producer, which calls [f] once with the current
    value as receiver and exactly the item's arguments, in order, and the
    step suspends on the key; once that call has resolved to [v] and the
    promise has settled, the step returns [v] as the new current value
    without a further call. *)
Theorem producer_calls_bound_method target item options s a f props :
  isTransform item = false ->
  is_object target = true ->
  args item = Some a ->
  propertyOf target (propName item) = VFun f props ->
  let key := queries_chainItem (queryKey (context s)) item in
  startsProducer (queryClient (world s) !! key) = true ->
  exists s',
    useGhostChainItem target item options s = (s', Suspend key)
    /\ calls (world s') = calls (world s) ++ [EvCall f target a]
    /\ queryClient (world s') !! key
       = Some (mkQuery (Pending (producerOutcome f target a)) false)
    /\ forall v,
        callFunction f target a = Resolved v ->
        exists s'',
          useGhostChainItem target item options
            (setWorld (settle key (world s')) s)
          = (s'', Done v)
          /\ calls (world s'') = calls (world s').
Proof. apply method_step_produces. Qed.

(** *** Evaluation contexts on one key *)

Lemma evaluations_stable (locals : list Render) target item options w
    (base : QueryKey) (c : completion value) :
  Forall (fun l => queryKey (context l) = base) locals ->
  (forall l w0,
      queryKey (context l) = base ->
      queryClient w0 = queryClient w ->
      exists s',
        useGhostChainItem target item options (setWorld w0 l) = (s', c)
        /\ queryClient (world s') = queryClient w0
        /\ calls (world s') = calls w0) ->
  exists w',
    evaluations locals target item options w
    = (w', replicate (length locals) c)
    /\ queryClient w' = queryClient w
    /\ calls w' = calls w.
Proof.
  intros Hlocals Hstep. revert w Hstep.
  induction Hlocals as [|l locals Hl _ IH]; intros w Hstep.
  - by exists w.
  - destruct (Hstep l w Hl eq_refl) as (s' & Hs' & Hqc & Hcalls).
    destruct (IH (world s')) as (w' & Hw' & Hqc' & Hcalls').
    { intros l0 w0 Hl0 Hw0. apply Hstep; [done | congruence]. }
    exists w'. simpl. rewrite Hs', Hw'.
    split; [done | split; congruence].
Qed.

Lemma step_method_pending target item options s a f props p inv :
  isTransform item = false ->
  is_object target = true ->
  args item = Some a ->
  propertyOf target (propName item) = VFun f props ->
  let key := queries_chainItem (queryKey (context s)) item in
  queryClient (world s) !! key = Some (mkQuery (Pending p) inv) ->
  useGhostChainItem target item options s
  = (atQuery target item options s, Suspend key).
Proof.
  intros Hitem Hobj Hargs Hprop key Hq.
  rewrite (step_method _ _ _ _ a f props) by done. fold key. by rewrite Hq.
Qed.


(** C4: when several evaluation contexts reach a method step under one
    key that has no usable entry, and no promise settles in between, the
    first starts the producer and every one of them suspends on that key:
    the underlying function has been called exactly once, the entry is the
    one in-flight call, and once it has resolved and settled every context
    gets its result without a further call. *)
Theorem one_producer_per_key (locals : list Render) target item options w
    (base : QueryKey) a f props :
  isTransform item = false ->
  is_object target = true ->
  args item = Some a ->
  propertyOf target (propName item) = VFun f props ->
  locals <> [] ->
  Forall (fun l => queryKey (context l) = base) locals ->
  let key := queries_chainItem base item in
  startsProducer (queryClient w !! key) = true ->
  exists w',
    evaluations locals target item options w
    = (w', replicate (length locals) (Suspend key))
    /\ calls w' = calls w ++ [EvCall f target a]
    /\ queryClient w' !! key
       = Some (mkQuery (Pending (producerOutcome f target a)) false)
    /\ forall v,
        callFunction f target a = Resolved v ->
        Forall
          (fun l =>
             exists s'',
               useGhostChainItem target item options
                 (setWorld (settle key w') l)
               = (s'', Done v)
               /\ calls (world s'') = calls w')
          locals.
Proof.
  intros Hitem Hobj Hargs Hprop Hne Hlocals key Hstart.
  destruct locals as [|l locals]; [done|].
  apply Forall_cons in Hlocals as [Hl Hlocals].
  set (s1 := setWorld
               (setQueryClient
                  (<[key := mkQuery (Pending (producerOutcome f target a))
                              false]> (queryClient w))
                  (log (EvCall f target a)
                     (world (atQuery target item options (setWorld w l)))))
               (atQuery target item options (setWorld w l))).
  assert (useGhostChainItem target item options (setWorld w l)
          = (s1, Suspend key)) as Hfirst.
  { rewrite (step_method_fetch _ _ _ _ a f props); try done.
    - cbn [context setWorld]. rewrite Hl. done.
    - cbn [context setWorld world]. by rewrite Hl. }
  assert (queryClient (world s1) !! key
          = Some (mkQuery (Pending (producerOutcome f target a)) false))
    as Hentry by (subst s1; cbn; by rewrite lookup_insert_eq).
  destruct (evaluations_stable locals target item options (world s1) base
              (Suspend key) Hlocals) as (w' & Hw' & Hqc & Hcalls).
  { intros l0 w0 Hl0 Hw0. eexists. split.
    - rewrite (step_method_pending _ _ _ _ a f props
                 (producerOutcome f target a) false); try done.
      + cbn [context setWorld]. by rewrite Hl0.
      + cbn [context setWorld world]. by rewrite Hl0, Hw0.
    - split; [done|]. by autorewrite with world. }
  exists w'. simpl. rewrite Hfirst, Hw'.
  split; [done|].
  split.
  { rewrite Hcalls. subst s1. cbn [world setWorld].
    by autorewrite with world. }
  split; [by rewrite Hqc|].
  intros v Hv.
  assert (producerOutcome f target a = Resolved (mkReturn v)) as Hout
    by (unfold producerOutcome; by rewrite Hv).
  assert (queryClient (settle key w') !! key
          = Some (mkQuery (Success (mkReturn v)) false)) as Hsettled.
  { apply settle_resolved. by rewrite Hqc, Hentry, Hout. }
  assert (calls (settle key w') = calls w') as Hsame.
  { unfold settle. by repeat case_match. }
  apply Forall_forall. intros l0 Hin.
  assert (queryKey (context l0) = base) as Hl0.
  { apply Forall_cons_2 with (x := l) in Hlocals; [|exact Hl].
    by eapply Forall_forall in Hlocals. }
  eexists. split.
  - rewrite (step_method_cached _ _ _ _ a f props (mkReturn v)); try done.
    cbn [context setWorld world]. by rewrite Hl0.
  - cbn [fst]. rewrite useEffect_world. by autorewrite with world.
Qed.

(** *** Invalidation *)

Lemma lookup_invalidateQueries key qc (k : QueryKey) :
  invalidateQueries key qc !! k
  = (fun q => if bool_decide (key `prefix_of` k) then markInvalidated q else q)
      <$> qc !! k.
Proof.
  unfold invalidateQueries. rewrite map_lookup_imap.
  by destruct (qc !! k).
Qed.

Lemma startsProducer_invalidated (q : Query) :
  (forall p, status q <> Pending p) ->
  startsProducer (Some (markInvalidated q)) = true.
Proof. destruct q as [[p|d|e] inv]; intros Hq; [by destruct (Hq p)|done..]. Qed.

(** *** Producer failures *)

Lemma lookup_invalidateGhosts key qc (k : QueryKey) :
  invalidateGhosts qc key !! k
  = (fun q =>
       if bool_decide (key `prefix_of` k \/ k `prefix_of` key)
       then markInvalidated q else q)
      <$> qc !! k.
Proof.
  unfold invalidateGhosts. rewrite map_lookup_imap.
  by destruct (qc !! k).
Qed.



(** *** The target change detector *)

Lemma onTargetChangeEvent_spec target key w :
  let joined := String.concat "." key in
  targetHashes (onTargetChangeEvent target key w)
  = <[joined := hashObject target]> (targetHashes w)
  /\ trace (onTargetChangeEvent target key w) = trace w
  /\ ((exists h, targetHashes w !! joined = Some h /\ h <> hashObject target) ->
      queryClient (onTargetChangeEvent target key w)
      = invalidateQueries key (queryClient w))
  /\ (~ (exists h,
            targetHashes w !! joined = Some h /\ h <> hashObject target) ->
      queryClient (onTargetChangeEvent target key w) = queryClient w).
Proof.
  intros joined. unfold onTargetChangeEvent. fold joined.
  destruct (targetHashes w !! joined) as [h|] eqn:Hprev.
  - destruct (Z.eqb_spec h (hashObject target)) as [Heq|Hne]; simpl.
    + repeat split; try done.
      intros (h' & [= <-] & Hne). done.
    + repeat split; try done.
      intros Hnot. destruct Hnot. eauto.
  - simpl. repeat split; try done.
    intros (h & Hh & _). done.
Qed.

Lemma onTargetChangeEvent_forces target key w h (q : Query) :
  targetHashes w !! String.concat "." key = Some h ->
  h <> hashObject target ->
  queryClient w !! key = Some q ->
  (forall p, status q <> Pending p) ->
  startsProducer (queryClient (onTargetChangeEvent target key w) !! key)
  = true.
Proof.
  intros Hh Hne Hq Hsettled.
  destruct (onTargetChangeEvent_spec target key w) as (_ & _ & Hinv & _).
  rewrite Hinv by eauto.
  rewrite lookup_invalidateQueries, Hq. simpl.
  rewrite bool_decide_eq_true_2 by done.
  by apply startsProducer_invalidated.
Qed.

Lemma render_cached target item options w hooks a f props d :
  isTransform item = false ->
  is_object target = true ->
  args item = Some a ->
  propertyOf target (propName item) = VFun f props ->
  let key := queries_chainItem (queries_target target) item in
  queryClient w !! key = Some (mkQuery (Success d) false) ->
  let w1 :=
    log (EvQuery key (dependencies (default (mkOptions None) options)))
      (log (EvGet target (propName item)) w) in
  exists r,
    value_of r = result d
    /\ render target [item] options w hooks
       = match hooks with
         | EffectSlot prev :: _ =>
             if areHookInputsEqual [target] prev
             then (w1, [EffectSlot [target]], Done r)
             else (onTargetChangeEvent target key w1, [EffectSlot [target]],
                   Done r)
         | _ => (onTargetChangeEvent target key w1, [EffectSlot [target]],
                 Done r)
         end.
Proof.
  intros Hitem Hobj Hargs Hprop key Hq w1.
  eexists (mkGhostReturn (result d) _). split; [reflexivity|].
  unfold render, useGhostChain.
  unfold bind at 1. unfold modify at 1. unfold bind at 1.
  rewrite reduce_cons.
  rewrite (step_method_cached _ _ _ _ a f props d); try done.
  rewrite reduce_nil. unfold ret, useEffect. cbn.
  destruct hooks as [|[prev v|prev] hooks]; cbn; try done.
  destruct prev as [|t0 prev]; cbn; [done|].
  destruct (Object_is target t0); cbn; [|done].
  by destruct prev.
Qed.

(** C3 (amended): the check of [useTargetAutoInvalidate] hashes the
    observed target and always stores that hash under the joined key; it
    invalidates the key exactly when a hash was stored before under that
    joined key and differs from the new one, so never on the first
    observation and never for an unchanged hash. The check is an effect of
    the pass: a pass that finds a fresh value under the key returns that
    cached value first, and the check runs when the pass commits, on mount
    and whenever the target is another reference than in the last
    committed pass. When it invalidates, a settled entry of the key is
    stale afterwards, and the next method step under the key starts the
    producer again and suspends. *)
Theorem target_change_detection :
  (forall target key w,
      let joined := String.concat "." key in
      let changed :=
        exists h, targetHashes w !! joined = Some h /\ h <> hashObject target in
      targetHashes (onTargetChangeEvent target key w)
      = <[joined := hashObject target]> (targetHashes w)
      /\ trace (onTargetChangeEvent target key w) = trace w
      /\ (changed ->
          queryClient (onTargetChangeEvent target key w)
          = invalidateQueries key (queryClient w))
      /\ (~ changed ->
          queryClient (onTargetChangeEvent target key w) = queryClient w))
  /\ (forall target item options w hooks a f props d,
        isTransform item = false ->
        is_object target = true ->
        args item = Some a ->
        propertyOf target (propName item) = VFun f props ->
        let key := queries_chainItem (queries_target target) item in
        queryClient w !! key = Some (mkQuery (Success d) false) ->
        let w1 :=
          log (EvQuery key (dependencies (default (mkOptions None) options)))
            (log (EvGet target (propName item)) w) in
        exists r,
          value_of r = result d
          /\ render target [item] options w hooks
             = match hooks with
               | EffectSlot prev :: _ =>
                   if areHookInputsEqual [target] prev
                   then (w1, [EffectSlot [target]], Done r)
                   else (onTargetChangeEvent target key w1,
                         [EffectSlot [target]], Done r)
               | _ => (onTargetChangeEvent target key w1,
                       [EffectSlot [target]], Done r)
               end)
  /\ (forall target item options s a f props h (q : Query),
        isTransform item = false ->
        is_object target = true ->
        args item = Some a ->
        propertyOf target (propName item) = VFun f props ->
        let key := queries_chainItem (queryKey (context s)) item in
        targetHashes (world s) !! String.concat "." key = Some h ->
        h <> hashObject target ->
        queryClient (world s) !! key = Some q ->
        (forall p, status q <> Pending p) ->
        exists s',
          useGhostChainItem target item options
            (setWorld (onTargetChangeEvent target key (world s)) s)
          = (s', Suspend key)
          /\ calls (world s') = calls (world s) ++ [EvCall f target a]).
Proof.
  split; [|split].
  - intros target key w. apply onTargetChangeEvent_spec.
  - intros target item options w hooks a f props d.
    apply render_cached.
  - intros target item options s a f props h q Hitem Hobj Hargs Hprop key
      Hh Hne Hq Hsettled.
    destruct (method_step_produces target item options
                (setWorld (onTargetChangeEvent target key (world s)) s)
                a f props Hitem Hobj Hargs Hprop)
      as (s' & Hs' & Hcalls & _).
    { cbn [context setWorld world]. fold key.
      by apply (onTargetChangeEvent_forces target key (world s) h q). }
    exists s'. split; [exact Hs'|].
    rewrite Hcalls. cbn [world setWorld]. f_equal.
    unfold calls.
    by destruct (onTargetChangeEvent_spec target key (world s))
      as (_ & -> & _).
Qed.

(** *** Invalidation through [invalidateGhosts] *)

Lemma ghostChain_single target item :
  isTransform item = false ->
  queries_ghostChain target [item]
  = queries_chainItem (queries_target target) item.
Proof.
  intros Hitem. unfold queries_ghostChain.
  rewrite filter_cons, decide_True by done. by rewrite filter_nil.
Qed.

Lemma onTargetChangeEvent_status target key w (k : QueryKey) (q : Query) :
  queryClient w !! k = Some q ->
  exists q',
    queryClient (onTargetChangeEvent target key w) !! k = Some q'
    /\ status q' = status q.
Proof.
  intros Hq. unfold onTargetChangeEvent.
  destruct (targetHashes w !! String.concat "." key) as [h|]; cbn;
    [destruct (Z.eqb h (hashObject target)); cbn|]; eauto.
  rewrite lookup_invalidateQueries, Hq. cbn.
  case_bool_decide; eauto.
Qed.

Lemma calls_onTargetChangeEvent target key w :
  calls (onTargetChangeEvent target key w) = calls w.
Proof.
  unfold calls.
  by destruct (onTargetChangeEvent_spec target key w) as (_ & -> & _).
Qed.

(** A component on a one-step chain whose key has no usable entry: the
    pass starts the producer and suspends. *)
Lemma render_fetch target item options w hooks a f props :
  isTransform item = false ->
  is_object target = true ->
  args item = Some a ->
  propertyOf target (propName item) = VFun f props ->
  let key := queries_chainItem (queries_target target) item in
  startsProducer (queryClient w !! key) = true ->
  exists w',
    render target [item] options w hooks = (w', hooks, Suspend key)
    /\ calls w' = calls w ++ [EvCall f target a].
Proof.
  intros Hitem Hobj Hargs Hprop key Hstart.
  unfold render, useGhostChain.
  unfold bind at 1. unfold modify at 1. unfold bind at 1.
  rewrite reduce_cons.
  rewrite (step_method_fetch _ _ _ _ a f props); try done.
  eexists. split; [reflexivity|].
  cbn [fst world setWorld]. by autorewrite with world.
Qed.

(** A component on a one-step chain whose key has a fresh value: the
    pass returns it, together with the closure that invalidates the
    step's key. *)
Lemma render_cached_closure target item options w hooks a f props d :
  isTransform item = false ->
  is_object target = true ->
  args item = Some a ->
  propertyOf target (propName item) = VFun f props ->
  let key := queries_chainItem (queries_target target) item in
  queryClient w !! key = Some (mkQuery (Success d) false) ->
  exists r w',
    render target [item] options w hooks = (w', [EffectSlot [target]], Done r)
    /\ value_of r = result d
    /\ (forall qc, invalidate r qc = invalidateGhosts qc key)
    /\ calls w' = calls w
    /\ exists q',
        queryClient w' !! key = Some q' /\ status q' = Success d.
Proof.
  intros Hitem Hobj Hargs Hprop key Hq.
  exists (mkGhostReturn (result d)
            (fun qc => invalidateGhosts qc (queries_ghostChain target [item]))).
  set (w1 := log (EvQuery key (dependencies (default (mkOptions None) options)))
               (log (EvGet target (propName item)) w)).
  assert (calls w1 = calls w) as Hcalls1.
  { subst w1. rewrite !calls_log. cbn. by rewrite !app_nil_r. }
  assert (queryClient w1 !! key = Some (mkQuery (Success d) false)) as Hq1
    by done.
  destruct (onTargetChangeEvent_status target key w1 key _ Hq1)
    as (q' & Hq' & Hstatus).
  assert (render target [item] options w hooks
          = (if match hooks with
                | EffectSlot prev :: _ => areHookInputsEqual [target] prev
                | _ => false
                end
             then w1 else onTargetChangeEvent target key w1,
             [EffectSlot [target]],
             Done (mkGhostReturn (result d)
                     (fun qc =>
                        invalidateGhosts qc
                          (queries_ghostChain target [item]))))) as Hrender.
  { unfold render, useGhostChain.
    unfold bind at 1. unfold modify at 1. unfold bind at 1.
    rewrite reduce_cons.
    rewrite (step_method_cached _ _ _ _ a f props d); try done.
    rewrite reduce_nil. unfold ret, useEffect. cbn.
    destruct hooks as [|[prev v|prev] hooks]; cbn; try done.
    destruct prev as [|t0 prev]; cbn; [done|].
    destruct (Object_is target t0); cbn; [|done].
    by destruct prev. }
  eexists. split; [exact Hrender|].
  split; [done|].
  split; [intros qc; cbn [invalidate]; by rewrite ghostChain_single|].
  destruct (match hooks with
            | EffectSlot prev :: _ => areHookInputsEqual [target] prev
            | _ => false
            end).
  - split; [done|]. by exists (mkQuery (Success d) false).
  - split; [by rewrite calls_onTargetChangeEvent|]. by exists q'.
Qed.

(** C1 (amended): invalidating a key through [invalidateGhosts] marks
    stale the entry of that key, of every cached key it is a prefix of,
    and of every cached key that is a prefix of it; every other entry is
    left as it is. A method step that then reads one of the marked keys,
    when the entry had settled, starts its producer again and suspends.
    The [invalidate ()] of an evaluation result does this for the key of
    its chain: after a pass has returned the cached value of a method
    step, calling it makes the next pass of the component start that
    step's producer again. *)
Theorem invalidation_cascades_to_extensions qc key (key' : QueryKey)
    (q : Query) :
  qc !! key' = Some q ->
  (key `prefix_of` key' \/ key' `prefix_of` key ->
   invalidateGhosts qc key !! key' = Some (markInvalidated q)
   /\ ((forall p, status q <> Pending p) ->
       forall target item options s a f props,
         isTransform item = false ->
         is_object target = true ->
         args item = Some a ->
         propertyOf target (propName item) = VFun f props ->
         queries_chainItem (queryKey (context s)) item = key' ->
         queryClient (world s) = invalidateGhosts qc key ->
         exists s',
           useGhostChainItem target item options s = (s', Suspend key')
           /\ calls (world s') = calls (world s) ++ [EvCall f target a]))
  /\ (~ key `prefix_of` key' -> ~ key' `prefix_of` key ->
      invalidateGhosts qc key !! key' = Some q)
  /\ (forall target item options w hooks a f props d,
        isTransform item = false ->
        is_object target = true ->
        args item = Some a ->
        propertyOf target (propName item) = VFun f props ->
        let step := queries_chainItem (queries_target target) item in
        queryClient w !! step = Some (mkQuery (Success d) false) ->
        exists r w' hooks' w'',
          render target [item] options w hooks = (w', hooks', Done r)
          /\ value_of r = result d
          /\ render target [item] options
               (setQueryClient (invalidate r (queryClient w')) w') hooks'
             = (w'', hooks', Suspend step)
          /\ calls w'' = calls w ++ [EvCall f target a]).
Proof.
  intros Hq.
  split; [|split].
  - intros Hreach. split.
    + by rewrite lookup_invalidateGhosts, Hq, bool_decide_eq_true_2.
    + intros Hsettled target item options s a f props Hitem Hobj Hargs Hprop
        Hkey Hworld.
      destruct (method_step_produces target item options s a f props
                  Hitem Hobj Hargs Hprop) as (s' & Hs' & Hcalls & _).
      * rewrite Hkey, Hworld, lookup_invalidateGhosts, Hq. simpl.
        rewrite bool_decide_eq_true_2 by done.
        by apply startsProducer_invalidated.
      * exists s'. by rewrite <- Hkey.
  - intros Hext Hpre.
    rewrite lookup_invalidateGhosts, Hq. simpl.
    rewrite bool_decide_eq_false_2; [done | by intros [?|?]].
  - intros target item options w hooks a f props d Hitem Hobj Hargs Hprop
      step Hcached.
    destruct (render_cached_closure target item options w hooks a f props d
                Hitem Hobj Hargs Hprop Hcached)
      as (r & w' & Hrender & Hvalue & Hclosure & Hcalls & q' & Hq' & Hstatus).
    destruct (render_fetch target item options
                (setQueryClient (invalidate r (queryClient w')) w')
                [EffectSlot [target]] a f props Hitem Hobj Hargs Hprop)
      as (w'' & Hagain & Hcalls').
    { cbn [queryClient setQueryClient].
      rewrite Hclosure, lookup_invalidateGhosts, Hq'. simpl.
      rewrite bool_decide_eq_true_2 by (by left).
      apply startsProducer_invalidated. intros p. by rewrite Hstatus. }
    exists r, w', [EffectSlot [target]], w''.
    split; [done|]. split; [done|]. split; [done|].
    by rewrite Hcalls', calls_setQueryClient, Hcalls.
Qed.

(** *** The options of an evaluation *)

Lemma step_method_trace target item options s a f props :
  isTransform item = false ->
  is_object target = true ->
  args item = Some a ->
  propertyOf target (propName item) = VFun f props ->
  let key := queries_chainItem (queryKey (context s)) item in
  exists s' c rest,
    useGhostChainItem target item options s = (s', c)
    /\ trace (world s')
       = trace (world s)
         ++ [EvGet target (propName item);
             EvQuery key (dependencies (default (mkOptions None) options))]
         ++ rest.
Proof.
  intros Hitem Hobj Hargs Hprop key.
  rewrite (step_method _ _ _ _ a f props) by done. fold key.
  destruct (queryClient (world s) !! key) as [[[p|d|e] [|]]|];
    eexists _, _, _; (split; [reflexivity|]);
    cbn [fst]; rewrite ?useEffect_world; unfold atQuery; cbn;
    rewrite <- ?app_assoc; cbn; try reflexivity.
  all: by rewrite app_nil_r.
Qed.

Lemma step_method_options target item options1 options2 s a f props :
  isTransform item = false ->
  is_object target = true ->
  args item = Some a ->
  propertyOf target (propName item) = VFun f props ->
  exists s1 s2 (c : completion value),
    useGhostChainItem target item options1 s = (s1, c)
    /\ useGhostChainItem target item options2 s = (s2, c)
    /\ queryClient (world s1) = queryClient (world s2)
    /\ targetHashes (world s1) = targetHashes (world s2)
    /\ calls (world s1) = calls (world s2)
    /\ newHooks s1 = newHooks s2
    /\ effects s1 = effects s2.
Proof.
  intros Hitem Hobj Hargs Hprop.
  rewrite !(step_method _ _ _ _ a f props) by done.
  destruct (queryClient (world s) !! _) as [[[p|d|e] [|]]|];
    eexists _, _, _; (split; [reflexivity|]); (split; [reflexivity|]);
    cbn [fst world setWorld]; rewrite ?useEffect_world;
    autorewrite with world; repeat split; try done.
  all: unfold useEffect, atQuery; cbn; by repeat case_match.
Qed.

(** C9 (amended): the options of an evaluation are handed to the query
    hook of a method step, which is called with the [dependencies] they
    carry next to the step's key; they change nothing in whether a step is
    computed again. A transform step does not look at the options at all:
    with whatever options it is evaluated, it does the same. A method step
    evaluated under other options ends the same way, by the entry of its
    key alone: the same completion, the same cache, the same calls, the
    same hook slots and effects. *)
Theorem options_reach_only_the_query_hook target item s :
  (forall options1 options2,
      isTransform item = true ->
      useGhostChainItem target item options1 s
      = useGhostChainItem target item options2 s)
  /\ (forall options a f props,
        isTransform item = false ->
        is_object target = true ->
        args item = Some a ->
        propertyOf target (propName item) = VFun f props ->
        exists s' c rest,
          useGhostChainItem target item options s = (s', c)
          /\ trace (world s')
             = trace (world s)
               ++ [EvGet target (propName item);
                   EvQuery (queries_chainItem (queryKey (context s)) item)
                     (dependencies (default (mkOptions None) options))]
               ++ rest)
  /\ (forall options1 options2 a f props,
        isTransform item = false ->
        is_object target = true ->
        args item = Some a ->
        propertyOf target (propName item) = VFun f props ->
        exists s1 s2 (c : completion value),
          useGhostChainItem target item options1 s = (s1, c)
          /\ useGhostChainItem target item options2 s = (s2, c)
          /\ queryClient (world s1) = queryClient (world s2)
          /\ targetHashes (world s1) = targetHashes (world s2)
          /\ calls (world s1) = calls (world s2)
          /\ newHooks s1 = newHooks s2
          /\ effects s1 = effects s2).
Proof.
  split; [|split].
  - intros options1 options2 Hitem. unfold isTransform in Hitem.
    unfold useGhostChainItem. by rewrite Hitem.
  - intros options a f props. apply step_method_trace.
  - intros options1 options2 a f props. apply step_method_options.
Qed.

End Properties.

(** ** The hook tests of [makeGhost.test.tsx] on the mock host *)

Section Tests.

Import Mock.

Local Open Scope list_scope.

(** "simple usage": the chain evaluates to the customer's name after one
    call each of the three methods. *)
Example simple_usage :
  let r := renderSettled (H := host) 3 project
             [getDetailed; customerProp; getDetailed; getName] None
             emptyWorld [] in
  valueOf r = Done (VStr "Customer C1")
  /\ calls r.1.1
     = [EvCall fnProjectGetDetailed project [];
        EvCall fnCustomerGetDetailed customer [];
        EvCall fnGetName customerDetailed []].
Proof. vm_compute. split; reflexivity. Qed.

(** "with undefined result in call stack": after [findDetailed ()] no
    further method is called, and the transform is called with
    [undefined]. *)
Example undefined_result_in_call_stack :
  let r := renderSettled (H := host) 3 project
             [findDetailed; customerProp; getDetailed; getName;
              transform fnIdentity] None emptyWorld [] in
  valueOf r = Done VUndefined
  /\ calls r.1.1
     = [EvCall fnProjectFindDetailed project [];
        EvCall fnIdentity VUndefined [VUndefined]].
Proof. vm_compute. split; reflexivity. Qed.

(** "target changes invalidates dependent ghosts": the name cached for the
    project is returned once more for the changed project; the commit of
    that pass marks it stale, and the next pass calls [getName] on the
    changed project. *)
Example target_change_invalidates :
  let r1 := render (H := host) projectChanged [getName] None namedWorld
              [EffectSlot [projectDetailed]] in
  let r2 := renderSettled (H := host) 1 projectChanged [getName] None
              r1.1.1 r1.1.2 in
  valueOf r1 = Done (VStr "Project Project A")
  /\ calls r1.1.1 = []
  /\ valueOf r2 = Done (VStr "CHANGED! Project Project A")
  /\ calls r2.1.1 = [EvCall fnProjectGetName projectChanged []].
Proof. vm_compute. repeat split; reflexivity. Qed.

(** "useGhost.invalidate() triggers re-execution of all async methods":
    after the [invalidate ()] of the result, each of the three methods is
    called a second time. *)
Example invalidate_reexecutes_all_async_methods :
  let chain := [getDetailed; customerProp; getDetailed; getName] in
  let r1 := renderSettled (H := host) 3 project chain None emptyWorld [] in
  let w2 := setQueryClient (invalidateOf r1.2 (queryClient r1.1.1)) r1.1.1 in
  let r2 := renderSettled (H := host) 3 project chain None w2 r1.1.2 in
  valueOf r2 = Done (VStr "Customer C1")
  /\ calls r2.1.1
     = [EvCall fnProjectGetDetailed project [];
        EvCall fnCustomerGetDetailed customer [];
        EvCall fnGetName customerDetailed [];
        EvCall fnProjectGetDetailed project [];
        EvCall fnCustomerGetDetailed customer [];
        EvCall fnGetName customerDetailed []].
Proof. vm_compute. split; reflexivity. Qed.

(** "ghost.invalidate() invalidates all dependent ghosts": the longer
    chain is rendered, the shorter one invalidated; both methods are
    called a second time. *)
Example invalidate_reaches_dependent_ghosts :
  let special := [getDetailed; customerProp; getDetailed] in
  let r1 := renderSettled (H := host) 2 project special None emptyWorld [] in
  let w2 :=
    setQueryClient
      (invalidateGhosts (queryClient r1.1.1)
         (queries_ghostChain (H := host) project [getDetailed]))
      r1.1.1 in
  let r2 := renderSettled (H := host) 2 project special None w2 r1.1.2 in
  calls r2.1.1
  = [EvCall fnProjectGetDetailed project [];
     EvCall fnCustomerGetDetailed customer [];
     EvCall fnProjectGetDetailed project [];
     EvCall fnCustomerGetDetailed customer []].
Proof. vm_compute. reflexivity. Qed.

(** "ghost.invalidate() invalidates previous ghosts": the shorter chain
    is rendered, the longer one invalidated; [getDetailed] of the project
    is called a second time, that of the customer never. *)
Example invalidate_reaches_previous_ghosts :
  let special := [getDetailed; customerProp; getDetailed] in
  let r1 :=
    renderSettled (H := host) 1 project [getDetailed] None emptyWorld [] in
  let w2 :=
    setQueryClient
      (invalidateGhosts (queryClient r1.1.1)
         (queries_ghostChain (H := host) project special))
      r1.1.1 in
  let r2 :=
    renderSettled (H := host) 1 project [getDetailed] None w2 r1.1.2 in
  calls r2.1.1
  = [EvCall fnProjectGetDetailed project [];
     EvCall fnProjectGetDetailed project []].
Proof. vm_compute. reflexivity. Qed.

End Tests.

(** ** The worded claims on the mock host *)

Section Counterexamples.

Import Mock.

Local Open Scope list_scope.

(** What the evaluator does on the inputs of the counterexamples. *)

Example transform_after_undefined_revives_the_chain :
  let run := reduce (fun cur i => useGhostChainItem (H := host) cur i None)
               [transform fnFallback; getName] VUndefined
               (mounting emptyWorld rootKey) in
  run.2 = Suspend nameKey
  /\ calls (world run.1)
     = [EvCall fnFallback VUndefined [VUndefined];
        EvCall fnGetName customerDetailed []].
Proof. vm_compute. split; reflexivity. Qed.

Example skipped_item_adds_no_token :
  let run := useGhostChain (H := host) project [nicknameProp; labelProp] None
               (startRender emptyWorld []) in
  queryKey (context run.1) = rootKey ++ ["nickname"]
  /\ queries_ghostChain (H := host) project [nicknameProp; labelProp]
     = rootKey ++ ["nickname"; "label"].
Proof. vm_compute. split; reflexivity. Qed.

Example changed_target_reads_the_cached_value :
  let run := useGhostChainItem (H := host) projectChanged getName None
               (mounting namedWorld rootKey) in
  run.2 = Done (VStr "Project Project A")
  /\ queryClient (world run.1) = queryClient namedWorld
  /\ effects run.1 = [mkEffect projectChanged nameKey].
Proof. vm_compute. repeat split; reflexivity. Qed.

Example string_target_is_rejected :
  propertyOf (H := host) (VStr "Customer C1") "toUpperCase"
  = VFun fnToUpperCase []
  /\ useGhostChainItem (H := host) (VStr "Customer C1") toUpperCase None
       (mounting emptyWorld rootKey)
     = (mounting emptyWorld rootKey, Throw (AssertionError "Object")).
Proof. vm_compute. split; reflexivity. Qed.

(** C2, counterexample: [findDetailed ()] has resolved to [undefined]; the
    chain goes on with a transform that maps it to the detailed customer
    and then with [getName ()]. That method step does not resolve to
    [undefined]: it reads the property, starts its producer and
    suspends. *)
Lemma null_short_circuit_counterexample : ~ null_short_circuit_as_stated.
Proof.
  intros Hclaim.
  destruct (Hclaim host VUndefined [transform fnFallback] getName None
              (mounting emptyWorld rootKey) eq_refl eq_refl)
    as (s' & Hrun & _).
  vm_compute in Hrun. discriminate Hrun.
Qed.

(** C5, counterexample: on the project, [nickname] reads [undefined] and
    the following [label] is skipped; the running key has the token of
    [nickname] only, not one token for each of the two items. *)
Lemma key_per_non_transform_item_counterexample :
  ~ key_per_non_transform_item_as_stated.
Proof.
  intros Hclaim.
  pose (chain := [nicknameProp; labelProp]).
  pose (run := useGhostChain (H := host) project chain None
                 (startRender emptyWorld [])).
  specialize (Hclaim host project chain None emptyWorld [] run.1
                (mkGhostReturn VUndefined
                   (fun qc =>
                      invalidateGhosts qc
                        (queries_ghostChain (H := host) project chain)))
                eq_refl).
  vm_compute in Hclaim. discriminate Hclaim.
Qed.

(** C3, counterexample: the name of the project was cached when the hash
    of the project as it was is on record; evaluated against the changed
    project, the step reads the cached name and returns it: it does not
    suspend to recompute. *)
Lemma invalidation_precedes_read_counterexample :
  ~ invalidation_precedes_read_as_stated.
Proof.
  intros Hclaim.
  assert (mockHash projectDetailed <> hashObject (Host := host) projectChanged)
    as Hne by (vm_compute; discriminate).
  destruct (Hclaim host projectChanged getName [] None
              (mounting namedWorld rootKey)
              (mkReturn (VStr "Project Project A")) (mockHash projectDetailed)
              eq_refl eq_refl eq_refl eq_refl eq_refl eq_refl Hne)
    as (s' & Hrun).
  vm_compute in Hrun. discriminate Hrun.
Qed.

(** A transform computed under the option dependencies [[1]] is
    evaluated again under [[2]] on the slots it left: the memo is hit, the
    mapping function is not called again. *)
Lemma options_transform_half_refuted :
  ~ options_reach_transform_memo_as_stated.
Proof.
  intros Hclaim.
  pose (s := mounting emptyWorld rootKey).
  pose (run1 := useGhostChainItem (H := host) (VStr "Customer C1")
                  (transform fnIdentity) (Some (mkOptions (Some [VNum 1]))) s).
  pose (run2 := useGhostChainItem (H := host) (VStr "Customer C1")
                  (transform fnIdentity) (Some (mkOptions (Some [VNum 2])))
                  (mkRender (world run1.1) (newHooks run1.1) [] []
                     (context run1.1))).
  apply (Hclaim host (VStr "Customer C1") (transform fnIdentity)
           [VNum 1] [VNum 2] s run1.1 run2.1
           (VStr "Customer C1") (VStr "Customer C1")
           eq_refl eq_refl eq_refl eq_refl).
  reflexivity.
Qed.

(** [getDetailed ()] is cached and came back under the option
    dependencies [[1]]; evaluated under [[2]] it comes back from the cache
    again: the step does not suspend, the method is not called. *)
Lemma options_query_half_refuted :
  ~ options_reach_query_memo_as_stated.
Proof.
  intros Hclaim.
  pose (s := mounting detailedWorld rootKey).
  pose (run1 := useGhostChainItem (H := host) project getDetailed
                  (Some (mkOptions (Some [VNum 1]))) s).
  destruct (Hclaim host project getDetailed [] [VNum 1] [VNum 2] s run1.1
              projectDetailed eq_refl eq_refl eq_refl eq_refl)
    as (s2 & Hrun).
  vm_compute in Hrun. discriminate Hrun.
Qed.

Example cached_method_step_ignores_option_dependencies :
  let s := mounting detailedWorld rootKey in
  let run1 := useGhostChainItem (H := host) project getDetailed
                (Some (mkOptions (Some [VNum 1]))) s in
  let run2 := useGhostChainItem (H := host) project getDetailed
                (Some (mkOptions (Some [VNum 2])))
                (mkRender (world run1.1) (newHooks run1.1) [] []
                   (context s)) in
  run1.2 = Done projectDetailed
  /\ run2.2 = Done projectDetailed
  /\ calls (world run2.1) = [].
Proof. vm_compute. repeat split; reflexivity. Qed.

(** C9, counterexample: neither kind of step is computed again because
    the option dependencies have changed: not a transform, whose memo is
    hit, and not a method step, whose cached value comes back. *)
Lemma options_dependencies_counterexample :
  ~ options_reach_transform_memo_as_stated
  /\ ~ options_reach_query_memo_as_stated.
Proof.
  split.
  - exact options_transform_half_refuted.
  - exact options_query_half_refuted.
Qed.

(** C1, counterexample: the detailed project is cached under the key of
    [getDetailed ()]; invalidating the longer key of the customer's
    [getDetailed ()], which that entry's key does not extend, marks it
    stale all the same. *)
Lemma non_extensions_unaffected_counterexample :
  ~ non_extensions_unaffected_as_stated.
Proof.
  intros Hclaim.
  assert (~ customerDetailedKey `prefix_of` detailedKey) as Hnot.
  { intros [k Hk]. vm_compute in Hk. discriminate Hk. }
  assert (threeEntries !! detailedKey = Some (fresh projectDetailed))
    as Hentry by (vm_compute; reflexivity).
  specialize (Hclaim threeEntries customerDetailedKey detailedKey
                (fresh projectDetailed) Hentry Hnot).
  vm_compute in Hclaim. discriminate Hclaim.
Qed.

(** [ping ()] on the probe rejects with [undefined]: once that has
    settled, the next pass throws the type error. *)
Example falsy_rejection_is_not_rethrown :
  let r1 := render (H := host) probe [ping] None emptyWorld [] in
  let w1 := settle pingKey r1.1.1 in
  let r2 := render (H := host) probe [ping] None w1 [] in
  valueOf r1 = Suspend pingKey
  /\ queryClient w1 = queryClient pingedWorld
  /\ valueOf r2 = Throw (TypeError "query.data is undefined")
  /\ calls r2.1.1 = [EvCall fnRejectsEmpty probe []].
Proof. vm_compute. repeat split; reflexivity. Qed.


(** C10, counterexample: the current value is the string
    ["Customer C1"], whose [toUpperCase] is callable; the step throws the
    assertion error of [assert.object] and calls nothing. *)
Lemma producer_called_on_callable_property_counterexample :
  ~ producer_called_on_callable_property_as_stated.
Proof.
  intros Hclaim.
  destruct (Hclaim host (VStr "Customer C1") toUpperCase None
              (mounting emptyWorld rootKey) [] fnToUpperCase []
              eq_refl eq_refl eq_refl eq_refl eq_refl)
    as (s' & Hrun & _).
  vm_compute in Hrun. discriminate Hrun.
Qed.

End Counterexamples.

(** ** The theorems at work on the mock host *)

Section Witnesses.

Import Mock.

Local Open Scope list_scope.

(** Invalidating the key of [getDetailed ()] marks the detailed customer
    reached through it, invalidating the key of that customer marks the
    detailed project before it, the other root's entry is left alone; and
    the [invalidate ()] of a pass that returned the cached name makes the
    next pass call [getName] again. *)
Lemma invalidation_cascades_witness :
  (invalidateGhosts threeEntries detailedKey !! customerDetailedKey
   = Some (markInvalidated (fresh customerDetailed)))
  /\ (invalidateGhosts threeEntries customerDetailedKey !! detailedKey
      = Some (markInvalidated (fresh projectDetailed)))
  /\ (invalidateGhosts threeEntries detailedKey !! otherDetailedKey
      = Some (fresh projectDetailed))
  /\ (exists r w' hooks' w'',
        render (H := host) projectDetailed [getName] None namedWorld []
        = (w', hooks', Done r)
        /\ value_of r = VStr "Project Project A"
        /\ render (H := host) projectDetailed [getName] None
             (setQueryClient (invalidate r (queryClient w')) w') hooks'
           = (w'', hooks', Suspend nameKey)
        /\ calls w''
           = calls namedWorld ++ [EvCall fnProjectGetName projectDetailed []]).
Proof.
  assert (threeEntries !! customerDetailedKey = Some (fresh customerDetailed))
    as Hinner by (vm_compute; reflexivity).
  assert (threeEntries !! detailedKey = Some (fresh projectDetailed))
    as Houter by (vm_compute; reflexivity).
  assert (threeEntries !! otherDetailedKey = Some (fresh projectDetailed))
    as Hother by (vm_compute; reflexivity).
  assert (detailedKey `prefix_of` customerDetailedKey) as Hprefix.
  { exists ["customer"; "getDetailed(7)"]. vm_compute. reflexivity. }
  assert (~ detailedKey `prefix_of` otherDetailedKey) as Hnot.
  { intros [k Hk]. vm_compute in Hk. discriminate Hk. }
  assert (~ otherDetailedKey `prefix_of` detailedKey) as Hnot'.
  { intros [k Hk]. vm_compute in Hk. discriminate Hk. }
  split; [|split; [|split]].
  - exact (proj1 (proj1 (invalidation_cascades_to_extensions (H := host)
                           threeEntries detailedKey customerDetailedKey
                           (fresh customerDetailed) Hinner)
                    (or_introl Hprefix))).
  - exact (proj1 (proj1 (invalidation_cascades_to_extensions (H := host)
                           threeEntries customerDetailedKey detailedKey
                           (fresh projectDetailed) Houter)
                    (or_intror Hprefix))).
  - exact (proj1 (proj2 (invalidation_cascades_to_extensions (H := host)
                           threeEntries detailedKey otherDetailedKey
                           (fresh projectDetailed) Hother)) Hnot Hnot').
  - exact (proj2 (proj2 (invalidation_cascades_to_extensions (H := host)
                           threeEntries detailedKey otherDetailedKey
                           (fresh projectDetailed) Hother))
             projectDetailed getName None namedWorld [] [] fnProjectGetName []
             (mkReturn (VStr "Project Project A"))
             eq_refl eq_refl eq_refl eq_refl eq_refl).
Defined.

(** After [undefined], [customer], [getDetailed ()] and [getName ()] are
    skipped. *)
Lemma nullish_short_circuit_witness :
  is_nullOrUndefined VUndefined = true
  /\ reduce (fun cur item => useGhostChainItem (H := host) cur item None)
       [customerProp; getDetailed; getName] VUndefined
       (mounting emptyWorld detailedKey)
     = (mounting emptyWorld detailedKey, Done VUndefined).
Proof.
  split; [reflexivity|].
  apply (proj2 (nullish_short_circuit (H := host) VUndefined None
                  (mounting emptyWorld detailedKey) eq_refl)).
  repeat constructor.
Defined.

(** The name cached for the project is returned for the changed project,
    and the check runs at the commit. *)
Lemma target_change_detection_witness :
  exists r,
    value_of r = VStr "Project Project A"
    /\ render (H := host) projectChanged [getName] None namedWorld
         [EffectSlot [projectDetailed]]
       = (onTargetChangeEvent (H := host) projectChanged nameKey
            (log (EvQuery nameKey None)
               (log (EvGet projectChanged "getName") namedWorld)),
          [EffectSlot [projectChanged]], Done r).
Proof.
  destruct (proj1 (proj2 (target_change_detection (H := host)))
              projectChanged getName None namedWorld
              [EffectSlot [projectDetailed]] [] fnProjectGetName []
              (mkReturn (VStr "Project Project A"))
              eq_refl eq_refl eq_refl eq_refl eq_refl)
    as (r & Hvalue & Hrender).
  exists r. split; [exact Hvalue | exact Hrender].
Defined.

(** Three contexts mount on [getDetailed ()]: one call. *)
Lemma one_producer_per_key_witness :
  exists w',
    evaluations (H := host)
      [mounting emptyWorld rootKey; mounting emptyWorld rootKey;
       mounting emptyWorld rootKey]
      project getDetailed None emptyWorld
    = (w', [Suspend detailedKey; Suspend detailedKey; Suspend detailedKey])
    /\ calls w' = [EvCall fnProjectGetDetailed project []].
Proof.
  destruct (one_producer_per_key (H := host)
              [mounting emptyWorld rootKey; mounting emptyWorld rootKey;
               mounting emptyWorld rootKey]
              project getDetailed None emptyWorld rootKey []
              fnProjectGetDetailed [])
    as (w' & Hrun & Hcalls & _).
  - reflexivity.
  - reflexivity.
  - reflexivity.
  - reflexivity.
  - discriminate.
  - repeat constructor.
  - reflexivity.
  - exists w'. split; [exact Hrun | exact Hcalls].
Defined.

(** [customer] and [id] on the detailed project: two tokens. *)
Lemma key_extends_witness :
  queryKey
    (context
       (reduce (fun cur item => useGhostChainItem (H := host) cur item None)
          [customerProp; idProp] projectDetailed
          (mounting emptyWorld rootKey)).1)
  = rootKey ++ ["customer"; "id"].
Proof.
  apply (proj2 (proj2 (key_extends_per_evaluated_step (H := host)
                         projectDetailed None (mounting emptyWorld rootKey)
                         _ (VStr "C1")))
           [customerProp; idProp]).
  - repeat constructor.
  - reflexivity.
  - vm_compute. reflexivity.
Defined.



(** A transform of a string, and a call of the string property [label]. *)
Lemma contract_errors_witness :
  (exists msg,
      useGhostChainItem (H := host) project badTransform None
        (mounting emptyWorld rootKey)
      = (mounting emptyWorld rootKey, Throw (AssertionError msg)))
  /\ (exists s' msg,
        useGhostChainItem (H := host) project labelCall None
          (mounting emptyWorld rootKey)
        = (s', Throw (AssertionError msg))
        /\ queryClient (world s') = ∅).
Proof.
  split.
  - exact (proj1 (contract_errors_raise_synchronously (H := host) project
                    badTransform None (mounting emptyWorld rootKey))
             eq_refl eq_refl).
  - destruct (proj2 (contract_errors_raise_synchronously (H := host) project
                       labelCall None (mounting emptyWorld rootKey))
                eq_refl eq_refl (ex_intro _ [] eq_refl)
                (or_intror eq_refl))
      as (s' & msg & Hrun & Hcache & _).
    exists s', msg. split; [exact Hrun | exact Hcache].
Defined.

(** One transform, two option records; and one cached method step, two
    option records. *)
Lemma options_witness :
  useGhostChainItem (H := host) (VStr "Customer C1") (transform fnIdentity)
    (Some (mkOptions (Some [VNum 1]))) (mounting emptyWorld rootKey)
  = useGhostChainItem (H := host) (VStr "Customer C1") (transform fnIdentity)
      (Some (mkOptions (Some [VNum 2]))) (mounting emptyWorld rootKey)
  /\ exists s1 s2 (c : completion value),
      useGhostChainItem (H := host) project getDetailed
        (Some (mkOptions (Some [VNum 1]))) (mounting detailedWorld rootKey)
      = (s1, c)
      /\ useGhostChainItem (H := host) project getDetailed
           (Some (mkOptions (Some [VNum 2]))) (mounting detailedWorld rootKey)
         = (s2, c)
      /\ calls (world s1) = calls (world s2).
Proof.
  split.
  - exact (proj1 (options_reach_only_the_query_hook (H := host)
                    (VStr "Customer C1") (transform fnIdentity)
                    (mounting emptyWorld rootKey))
             (Some (mkOptions (Some [VNum 1])))
             (Some (mkOptions (Some [VNum 2]))) eq_refl).
  - destruct (proj2 (proj2 (options_reach_only_the_query_hook (H := host)
                              project getDetailed
                              (mounting detailedWorld rootKey)))
                (Some (mkOptions (Some [VNum 1])))
                (Some (mkOptions (Some [VNum 2])))
                [] fnProjectGetDetailed []
                eq_refl eq_refl eq_refl eq_refl)
      as (s1 & s2 & c & Hone & Htwo & _ & _ & Hcalls & _).
    exists s1, s2, c. split; [exact Hone|]. split; [exact Htwo | exact Hcalls].
Defined.

(** [getDetailed ()] on the project: called on the project, with no
    arguments. *)
Lemma producer_calls_witness :
  exists s',
    useGhostChainItem (H := host) project getDetailed None
      (mounting emptyWorld rootKey)
    = (s', Suspend detailedKey)
    /\ calls (world s') = [EvCall fnProjectGetDetailed project []].
Proof.
  destruct (producer_calls_bound_method (H := host) project getDetailed None
              (mounting emptyWorld rootKey) [] fnProjectGetDetailed []
              eq_refl eq_refl eq_refl eq_refl eq_refl)
    as (s' & Hrun & Hcalls & _).
  exists s'. split; [exact Hrun | exact Hcalls].
Defined.

End Witnesses.

(** ** Further properties of the evaluator *)

Section Further.

Context `{Host}.

Local Open Scope list_scope.

Implicit Types (target v : value) (item : GhostChainItem)
  (chain : GhostChain) (options : option useGhostOptions) (s : Render)
  (w : World) (key : QueryKey).

Ltac unfold_item :=
  unfold useGhostChainItem, useTargetAutoInvalidate, useSuspenseQuery,
    useEffect, useMemo, getProperty, assert_object, assert_function,
    assert_array, assert_array_args, ghostFnContext_bind, callBound,
    bind, ret, throw, modify, gets in *.

Ltac item_cases :=
  unfold_item; repeat (case_match; simplify_eq /=); try done.

(** *** Chains of plain property reads *)

Lemma property_step target item options s :
  isTransform item = false ->
  is_nullOrUndefined target = false ->
  args item = None ->
  useGhostChainItem target item options s
  = if is_object target
    then (setContext
            (mkContext (queries_chainItem (queryKey (context s)) item))
            (setWorld (log (EvGet target (propName item)) (world s)) s),
          Done (propertyOf target (propName item)))
    else (s, Throw (AssertionError "Object")).
Proof.
  intros Hitem Hnull Hargs. unfold isTransform in Hitem.
  unfold useGhostChainItem. rewrite Hitem, Hnull, Hargs.
  unfold_item. by destruct (is_object target).
Qed.


(** X2: reading a property that is [undefined] or [null] off an object
    ends the chain quietly, like optional chaining: whatever property and
    method items follow, the chain evaluates to that nullish value; the
    only event is the one read, the running key has gained the one token
    of that property, and nothing is called or cached. *)
Theorem missing_property_ends_the_chain target item rest options s :
  isTransform item = false ->
  is_object target = true ->
  args item = None ->
  is_nullOrUndefined (propertyOf target (propName item)) = true ->
  Forall (fun i => isTransform i = false) rest ->
  reduce (fun cur i => useGhostChainItem cur i options) (item :: rest)
    target s
  = (setContext (mkContext (queryKey (context s) ++ [itemToken item]))
       (setWorld (log (EvGet target (propName item)) (world s)) s),
     Done (propertyOf target (propName item))).
Proof.
  intros Hitem Hobj Hargs Hmissing Hrest.
  rewrite reduce_cons, property_step by (done || by destruct target).
  rewrite Hobj. by rewrite reduce_nullish.
Qed.

(** *** What a pass leaves to the commit *)

Lemma step_targetHashes target item options s s' (c : completion value) :
  useGhostChainItem target item options s = (s', c) ->
  targetHashes (world s') = targetHashes (world s).
Proof. intros Hstep. item_cases. Qed.

Lemma reduce_targetHashes target chain options s s' (c : completion value) :
  reduce (fun cur item => useGhostChainItem cur item options) chain target s
  = (s', c) ->
  targetHashes (world s') = targetHashes (world s).
Proof.
  revert target s. induction chain as [|item chain IH]; intros target s.
  - rewrite reduce_nil. by intros [= <- <-].
  - rewrite reduce_cons.
    destruct (useGhostChainItem target item options s)
      as [s1 [v1|key|e]] eqn:Hstep;
      apply step_targetHashes in Hstep.
    + intros Hrest. apply IH in Hrest. congruence.
    + intros [= <- <-]. done.
    + intros [= <- <-]. done.
Qed.

(** X4: the target hashes are written by committed effects only. A
    render pass that suspends or throws, on whatever chain and wherever in
    it, leaves the table of target hashes and the component's hook slots
    exactly as they were. *)
Theorem uncommitted_pass_records_nothing target chain options w hooks
    w' hooks' (c : completion UseGhostReturn) :
  render target chain options w hooks = (w', hooks', c) ->
  (forall r, c <> Done r) ->
  targetHashes w' = targetHashes w /\ hooks' = hooks.
Proof.
  unfold render, useGhostChain, bind, modify, ret.
  destruct (reduce _ chain target _) as [s1 [v|key|e]] eqn:Hrun;
    intros [= <- <- <-] Hc.
  - by destruct (Hc (mkGhostReturn v
                       (fun queryClient =>
                          invalidateGhosts queryClient
                            (queries_ghostChain target chain)))).
  - split; [|done]. by apply reduce_targetHashes in Hrun.
  - split; [|done]. by apply reduce_targetHashes in Hrun.
Qed.

(** *** The arguments of a transform item *)

(** X5: the second argument of a transform item, its dependency list,
    may be absent, [undefined] or [null], which all mean no declared
    dependency: the item is evaluated like the item with the mapping
    function alone. Any other value that is not an array makes the step
    throw the assertion error for an array, after the mapping function has
    been accepted and before it is called: the state is as before. *)
Theorem transform_dependency_argument target item options s l f props :
  isTransform item = true ->
  args item = Some l ->
  index l 0 = VFun f props ->
  (is_nullOrUndefined (index l 1) = true ->
   useGhostChainItem target item options s
   = useGhostChainItem target
       (mkItem (propName item) (Some [VFun f props])) options s)
  /\ (is_nullOrUndefined (index l 1) = false ->
      is_array (index l 1) = false ->
      useGhostChainItem target item options s
      = (s, Throw (AssertionError "Array"))).
Proof.
  intros Hitem Hargs Hfn. unfold isTransform in Hitem.
  unfold useGhostChainItem. cbn [propName args]. rewrite Hitem, Hargs.
  unfold assert_array_args, assert_function, assert_array, bind, ret, throw.
  cbv beta iota. rewrite Hfn. cbv beta iota.
  unfold nullish_coalesce. split.
  - intros Hnull. rewrite Hnull. reflexivity.
  - intros Hnull Harr. rewrite Hnull.
    by destruct (index l 1).
Qed.

(** *** The memo of a transform item across passes *)




(** *** The table of target hashes *)

(** X7: the check of the target is idempotent: run a second time for
    the same target and key, it changes nothing, and in particular does
    not invalidate once more. *)
Theorem target_check_is_idempotent target key w :
  onTargetChangeEvent target key (onTargetChangeEvent target key w)
  = onTargetChangeEvent target key w.
Proof.
  assert (forall w0,
             targetHashes w0 !! String.concat "." key
             = Some (hashObject target) ->
             onTargetChangeEvent target key w0 = w0) as Hfix.
  { intros [qc th tr] Hrec. unfold onTargetChangeEvent. cbn in *.
    rewrite Hrec, Z.eqb_refl. cbn. unfold setTargetHashes. cbn.
    by rewrite insert_id. }
  apply Hfix.
  destruct (onTargetChangeEvent_spec target key w) as (-> & _).
  by rewrite lookup_insert_eq.
Qed.

(** X8: after [cleanupTargetHashes] every check is a first observation:
    whatever had been recorded and whatever the target has become, the
    check invalidates nothing; it leaves the query cache as it is, cached
    values included, and records the one hash. *)
Theorem cleanup_forgets_every_observation target key w :
  queryClient (cleanupTargetHashes w) = queryClient w
  /\ queryClient (onTargetChangeEvent target key (cleanupTargetHashes w))
     = queryClient w
  /\ targetHashes (onTargetChangeEvent target key (cleanupTargetHashes w))
     = {[ String.concat "." key := hashObject target ]}.
Proof.
  split; [done|].
  destruct (onTargetChangeEvent_spec target key (cleanupTargetHashes w))
    as (Hhashes & _ & _ & Hkeep).
  split.
  - rewrite Hkeep; [done|].
    intros (h & Hh & _). cbn in Hh. by rewrite lookup_empty in Hh.
  - rewrite Hhashes. cbn. by rewrite insert_empty.
Qed.

(** X9: the hashes are recorded under the key joined with ["."], so two
    different query keys that are written the same way when joined share
    one record: a target observed under the one makes the first check
    under the other invalidate that other key when the hashes differ,
    although no target was ever observed under it. *)
Theorem joined_keys_share_a_record target target' key (key' : QueryKey) w :
  String.concat "." key = String.concat "." key' ->
  hashObject target <> hashObject target' ->
  queryClient
    (onTargetChangeEvent target' key' (onTargetChangeEvent target key w))
  = invalidateQueries key' (queryClient (onTargetChangeEvent target key w)).
Proof.
  intros Hjoin Hhash.
  destruct (onTargetChangeEvent_spec target' key'
              (onTargetChangeEvent target key w)) as (_ & _ & Hinv & _).
  apply Hinv. exists (hashObject target). split; [|done].
  destruct (onTargetChangeEvent_spec target key w) as (-> & _).
  by rewrite <- Hjoin, lookup_insert_eq.
Qed.

(** *** The keys a pass queries *)

Lemma step_queries target item options s s' (c : completion value) :
  useGhostChainItem target item options s = (s', c) ->
  queryKey (context s) `prefix_of` queryKey (context s')
  /\ (forall key, c = Suspend key -> key = queryKey (context s'))
  /\ exists events,
      trace (world s') = trace (world s) ++ events
      /\ forall key deps,
          EvQuery key deps ∈ events -> key = queryKey (context s').
Proof.
  intros Hstep. unfold queries_chainItem in *.
  item_cases; (split; [try done; by apply prefix_app_r|]);
    (split; [by intros ? [= <-]|]).
  all: first
    [ exists []; split; [by rewrite app_nil_r|]
    | eexists; split; [rewrite <- ?app_assoc; reflexivity|] ].
  all: cbn; intros ? ? Hin;
    rewrite ?elem_of_cons, ?elem_of_nil in Hin;
    repeat (destruct Hin as [Hin|Hin]); by simplify_eq.
Qed.

Lemma reduce_queries target chain options s s' (c : completion value) :
  reduce (fun cur item => useGhostChainItem cur item options) chain target s
  = (s', c) ->
  queryKey (context s) `prefix_of` queryKey (context s')
  /\ (forall key, c = Suspend key -> queryKey (context s) `prefix_of` key)
  /\ exists events,
      trace (world s') = trace (world s) ++ events
      /\ forall key deps,
          EvQuery key deps ∈ events -> queryKey (context s) `prefix_of` key.
Proof.
  revert target s. induction chain as [|item chain IH]; intros target s.
  - rewrite reduce_nil. intros [= <- <-].
    split; [done|]. split; [done|].
    exists []. split; [by rewrite app_nil_r|].
    intros key deps Hin. by apply elem_of_nil in Hin.
  - rewrite reduce_cons.
    destruct (useGhostChainItem target item options s)
      as [s1 [v1|key1|e1]] eqn:Hstep;
      apply step_queries in Hstep
        as (Hprefix & Hsuspend & events & Htrace & Hevents).
    + intros Hrest.
      apply IH in Hrest as (Hprefix' & Hsuspend' & events' & Htrace' & Hevents').
      split; [by etrans|].
      split; [intros key Hkey; etrans; [exact Hprefix | by apply Hsuspend']|].
      exists (events ++ events').
      split; [by rewrite Htrace', Htrace, app_assoc|].
      intros key deps [Hin|Hin]%elem_of_app.
      * by rewrite (Hevents key deps Hin).
      * etrans; [exact Hprefix | by eapply Hevents'].
    + intros [= <- <-].
      split; [done|].
      split; [intros key [= <-]; by rewrite (Hsuspend key1 eq_refl)|].
      exists events. split; [done|].
      intros key deps Hin. by rewrite (Hevents key deps Hin).
    + intros [= <- <-].
      split; [done|]. split; [done|].
      exists events. split; [done|].
      intros key deps Hin. by rewrite (Hevents key deps Hin).
Qed.

(** X10: every key under which the evaluation of a chain calls the
    query hook, and so the key it suspends on when it suspends, extends
    the root key of the target: invalidating by the root key reaches every
    entry the evaluation has made. *)
Theorem queried_keys_extend_the_root_key target chain options w hooks
    s' (c : completion UseGhostReturn) :
  useGhostChain target chain options (startRender w hooks) = (s', c) ->
  (forall key, c = Suspend key -> queries_target target `prefix_of` key)
  /\ exists events,
      trace (world s') = trace w ++ events
      /\ forall key deps,
          EvQuery key deps ∈ events -> queries_target target `prefix_of` key.
Proof.
  unfold useGhostChain, bind, modify, ret.
  destruct (reduce _ chain target _) as [s1 [v|key1|e]] eqn:Hrun;
    apply reduce_queries in Hrun as (_ & Hsuspend & Hevents);
    intros [= <- <-]; (split; [|exact Hevents]).
  - done.
  - intros key [= <-]. by apply Hsuspend.
  - done.
Qed.

End Further.

(** ** The further properties at work on the mock host *)

Section FurtherWitnesses.

Import Mock.

Local Open Scope list_scope.


(** The project has no [nickname]: [label] and [getName ()] after it are
    not evaluated. *)
Lemma missing_property_witness :
  reduce (fun cur i => useGhostChainItem (H := host) cur i None)
    [nicknameProp; labelProp; getName] project (mounting emptyWorld rootKey)
  = (mkRender (mkWorld ∅ ∅ [EvGet project "nickname"]) [] [] []
       (mkContext (rootKey ++ ["nickname"])),
     Done VUndefined).
Proof.
  apply (missing_property_ends_the_chain (H := host) project nicknameProp
           [labelProp; getName] None (mounting emptyWorld rootKey)).
  - reflexivity.
  - reflexivity.
  - reflexivity.
  - reflexivity.
  - repeat constructor.
Defined.

(** The mounting pass on [getDetailed ()] suspends: nothing is
    recorded. *)
Lemma uncommitted_pass_witness :
  let r := render (H := host) project [getDetailed] None namedWorld [] in
  targetHashes r.1.1 = targetHashes namedWorld /\ r.1.2 = [].
Proof.
  intros r.
  apply (uncommitted_pass_records_nothing (H := host) project [getDetailed]
           None namedWorld [] r.1.1 r.1.2 r.2).
  - vm_compute. reflexivity.
  - intros g Hdone. vm_compute in Hdone. discriminate Hdone.
Defined.

(** [null] as dependency list, and a string as dependency list. *)
Lemma transform_dependency_witness :
  useGhostChainItem (H := host) project transformNullDeps None
    (mounting emptyWorld rootKey)
  = useGhostChainItem (H := host) project (transform fnIdentity) None
      (mounting emptyWorld rootKey)
  /\ useGhostChainItem (H := host) project transformBadDeps None
       (mounting emptyWorld rootKey)
     = (mounting emptyWorld rootKey, Throw (AssertionError "Array")).
Proof.
  split.
  - exact (proj1 (transform_dependency_argument (H := host) project
                    transformNullDeps None (mounting emptyWorld rootKey)
                    [VFun fnIdentity []; VNull] fnIdentity []
                    eq_refl eq_refl eq_refl) eq_refl).
  - exact (proj2 (transform_dependency_argument (H := host) project
                    transformBadDeps None (mounting emptyWorld rootKey)
                    [VFun fnIdentity []; VStr "name"] fnIdentity []
                    eq_refl eq_refl eq_refl) eq_refl eq_refl).
Defined.


(** The project observed under one key, the changed project under
    another key that is joined to the same string. *)
Lemma joined_keys_witness :
  dottedKey <> splitKey
  /\ queryClient
       (onTargetChangeEvent (H := host) projectChanged splitKey
          (onTargetChangeEvent (H := host) projectDetailed dottedKey
             namedWorld))
     = invalidateQueries splitKey
         (queryClient
            (onTargetChangeEvent (H := host) projectDetailed dottedKey
               namedWorld)).
Proof.
  split; [discriminate|].
  apply (joined_keys_share_a_record (H := host) projectDetailed
           projectChanged dottedKey splitKey namedWorld).
  - reflexivity.
  - vm_compute. discriminate.
Defined.

(** The key [getDetailed ()] suspends on extends the key of the
    project. *)
Lemma queried_keys_witness :
  queries_target (Host := host) project `prefix_of` detailedKey.
Proof.
  pose (run := useGhostChain (H := host) project [getDetailed] None
                 (startRender emptyWorld [])).
  assert (useGhostChain (H := host) project [getDetailed] None
            (startRender emptyWorld [])
          = (run.1, Suspend detailedKey)) as Hrun
    by (vm_compute; reflexivity).
  exact (proj1 (queried_keys_extend_the_root_key (H := host) project
                  [getDetailed] None emptyWorld [] run.1
                  (Suspend detailedKey) Hrun)
           detailedKey eq_refl).
Defined.

End FurtherWitnesses.
